(** * churchdwight-com-documentation: the PDF scraper of [main.py]

    A shallow embedding of the functions of [main.py] and of the parts of
    the Python standard library they call ([str] methods, two [re]
    patterns, [posixpath], [urllib.parse]), followed by the properties of
    the pipeline.

    Conventions.
    - A Python [str] is a [string]; a character is a code point below 256
      (the Latin-1 range), which is where every character the code
      inspects lives. Above that range [str.lower] can produce an ASCII
      letter (U+212A gives [k]), so what is said here of a URL and its
      lower-case form holds for the strings of the model only; the
      properties of [url_to_filename] and [download_pdf] are stated on
      the lower-case form, the text those functions hand to [urlparse].
    - [urllib.parse] and [ipaddress] are those of the current releases
      of CPython: [urlsplit] strips leading controls and spaces, wants
      an ASCII letter at the start of a scheme and checks a host in
      square brackets.
    - A call that may raise returns a [result]; everything raised in the
      model is an instance of Python's [Exception].
    - The outside world (HTTP, the browser, the disk) is an oracle [Env]
      indexed by the number of outside calls made so far, so two calls
      with the same arguments may be answered differently. *)

From Stdlib Require Import Ascii String NArith Lia List.
From stdpp Require Import gmap strings list fin_maps.

Local Open Scope char_scope.

(* ===================================================================== *)
(** ** Exceptions and results *)
(* ===================================================================== *)

Inductive exn : Type :=
  | ValueError (msg : string)
  | HTTPError (status : N)
  | RequestException
  | OSError
  | WebDriverException
  | TimeoutException.

Inductive result (A : Type) : Type :=
  | Ok (a : A)
  | Raise (e : exn).

Arguments Ok {A} a.
Arguments Raise {A} e.

Definition is_ok {A} (r : result A) : bool :=
  match r with Ok _ => true | Raise _ => false end.

(* ===================================================================== *)
(** ** Python strings *)
(* ===================================================================== *)

Module PyStr.

Definition code (c : ascii) : N := N_of_ascii c.

Definition in_range (lo hi : N) (c : ascii) : bool :=
  (lo <=? code c)%N && (code c <=? hi)%N.

(** [a-z], [0-9], [A-Z]. *)
Definition is_lower_az (c : ascii) : bool := in_range 97 122 c.
Definition is_digit (c : ascii) : bool := in_range 48 57 c.
Definition is_upper_az (c : ascii) : bool := in_range 65 90 c.

(** [str.lower] on one code point below 256: A-Z and the Latin-1
    capitals U+00C0..U+00DE (U+00D7, the multiplication sign, apart). *)
Definition lower_char (c : ascii) : ascii :=
  if is_upper_az c then ascii_of_N (code c + 32)
  else if in_range 192 222 c && negb (code c =? 215)%N
       then ascii_of_N (code c + 32)
       else c.

Fixpoint smap (f : ascii -> ascii) (s : string) : string :=
  match s with
  | EmptyString => EmptyString
  | String c s' => String (f c) (smap f s')
  end.

Fixpoint sfilter (p : ascii -> bool) (s : string) : string :=
  match s with
  | EmptyString => EmptyString
  | String c s' => if p c then String c (sfilter p s') else sfilter p s'
  end.

Fixpoint sforall (p : ascii -> bool) (s : string) : bool :=
  match s with
  | EmptyString => true
  | String c s' => p c && sforall p s'
  end.

(** [c in s] *)
Fixpoint contains_char (c : ascii) (s : string) : bool :=
  match s with
  | EmptyString => false
  | String a s' => Ascii.eqb a c || contains_char c s'
  end.

(** [s.lower()] *)
Definition lower (s : string) : string := smap lower_char s.

(** [bool(s)]: a string is truthy when it is not empty. *)
Definition truthy (s : string) : bool :=
  match s with EmptyString => false | String _ _ => true end.

(** [s.partition(c)] when [c in s]: the text before the first [c] and
    the text after it; [None] when [c] does not occur. *)
Fixpoint partition (c : ascii) (s : string) : option (string * string) :=
  match s with
  | EmptyString => None
  | String a s' =>
      if Ascii.eqb a c then Some (EmptyString, s')
      else match partition c s' with
           | Some (l, r) => Some (String a l, r)
           | None => None
           end
  end.

(** [s.rpartition(c)] when [c in s]: the same around the last [c]. *)
Fixpoint rpartition (c : ascii) (s : string) : option (string * string) :=
  match s with
  | EmptyString => None
  | String a s' =>
      match rpartition c s' with
      | Some (l, r) => Some (String a l, r)
      | None => if Ascii.eqb a c then Some (EmptyString, s') else None
      end
  end.

(** The longest prefix without a character of class [p], and the rest. *)
Fixpoint break (p : ascii -> bool) (s : string) : string * string :=
  match s with
  | EmptyString => (EmptyString, EmptyString)
  | String a s' =>
      if p a then (EmptyString, s)
      else let '(l, r) := break p s' in (String a l, r)
  end.

(** [s.startswith(pre)]; on a match also the text after [pre]. *)
Fixpoint strip_prefix (pre s : string) : option string :=
  match pre, s with
  | EmptyString, _ => Some s
  | String a pre', String b s' =>
      if Ascii.eqb a b then strip_prefix pre' s' else None
  | String _ _, EmptyString => None
  end.

Definition startswith (pre s : string) : bool :=
  match strip_prefix pre s with Some _ => true | None => false end.

(** [s.endswith(suf)] *)
Fixpoint endswith (suf s : string) : bool :=
  if String.eqb s suf then true
  else match s with
       | EmptyString => false
       | String _ s' => endswith suf s'
       end.

(** [s[:n]] and [s[:-n]] *)
Fixpoint take (n : nat) (s : string) : string :=
  match n, s with
  | S n', String a s' => String a (take n' s')
  | _, _ => EmptyString
  end.

Definition drop_last (n : nat) (s : string) : string :=
  take (String.length s - n) s.

(** [s.lstrip(c)], [s.rstrip(c)], [s.strip(c)] for a one-character set. *)
Fixpoint lstrip (c : ascii) (s : string) : string :=
  match s with
  | EmptyString => EmptyString
  | String a s' => if Ascii.eqb a c then lstrip c s' else s
  end.

Fixpoint rstrip (c : ascii) (s : string) : string :=
  match s with
  | EmptyString => EmptyString
  | String a s' =>
      match rstrip c s' with
      | EmptyString => if Ascii.eqb a c then EmptyString else String a EmptyString
      | r => String a r
      end
  end.

Definition strip (c : ascii) (s : string) : string := rstrip c (lstrip c s).

(** [sub in s] *)
Fixpoint contains (sub s : string) : bool :=
  if startswith sub s then true
  else match s with
       | EmptyString => false
       | String _ s' => contains sub s'
       end.

(** [s.split(c)]: the texts between the occurrences of [c]; one empty
    text for the empty string. *)
Fixpoint split (c : ascii) (s : string) : list string :=
  match s with
  | EmptyString => [EmptyString]
  | String a s' =>
      if Ascii.eqb a c then EmptyString :: split c s'
      else match split c s' with
           | x :: xs => String a x :: xs
           | [] => [String a EmptyString]
           end
  end.

(** [s.lstrip(chars)], the characters to strip given as a class. *)
Fixpoint lstrip_class (p : ascii -> bool) (s : string) : string :=
  match s with
  | EmptyString => EmptyString
  | String a s' => if p a then lstrip_class p s' else s
  end.

(** Each character replaced by a text. *)
Fixpoint sconcat_map (f : ascii -> string) (s : string) : string :=
  match s with
  | EmptyString => EmptyString
  | String a s' => f a +:+ sconcat_map f s'
  end.

(** What [str.isprintable] refuses below 256: the controls
    U+0000..U+001F and U+007F..U+009F, the no-break space U+00A0 and the
    soft hyphen U+00AD. *)
Definition unprintable (c : ascii) : bool :=
  (code c <? 32)%N || in_range 127 160 c || (code c =? 173)%N.

(** One hexadecimal digit in lower case, for a number below 16. *)
Definition hex_digit_of (n : N) : ascii :=
  if (n <? 10)%N then ascii_of_N (48 + n) else ascii_of_N (87 + n).

(** [repr(s)]: between apostrophes, or between double quotes when [s]
    holds an apostrophe and no double quote; the backslash and the
    quote in use are escaped, and so is every unprintable character. *)
Definition repr (s : string) : string :=
  let double_quote := ascii_of_N 34 in
  let backslash := ascii_of_N 92 in
  let quote :=
    if contains_char "'" s && negb (contains_char double_quote s)
    then double_quote else "'"%char in
  let escape (c : ascii) : string :=
    if Ascii.eqb c quote || Ascii.eqb c backslash
    then String backslash (String c EmptyString)
    else if (code c =? 9)%N then String backslash "t"
    else if (code c =? 10)%N then String backslash "n"
    else if (code c =? 13)%N then String backslash "r"
    else if unprintable c
    then String backslash
           (String "x" (String (hex_digit_of (code c / 16))
                          (String (hex_digit_of (code c mod 16)) EmptyString)))
    else String c EmptyString in
  String quote (sconcat_map escape s) +:+ String quote EmptyString.

End PyStr.

(* ===================================================================== *)
(** ** [re]: two substitutions and one pattern *)
(* ===================================================================== *)

Module Re.
Import PyStr.

(** [re.sub(r"[^a-z0-9]", "_", s)] *)
Definition sub_non_alnum (s : string) : string :=
  smap (fun c => if is_lower_az c || is_digit c then c else "_") s.

(** [re.sub(r"_+", "_", s)]: every maximal run of underscores becomes
    one underscore. *)
Fixpoint sub_underscores (s : string) : string :=
  match s with
  | EmptyString => EmptyString
  | String a s' =>
      match s' with
      | String b _ =>
          if Ascii.eqb a "_" && Ascii.eqb b "_" then sub_underscores s'
          else String a (sub_underscores s')
      | EmptyString => String a EmptyString
      end
  end.

(** [\s] on code points below 256: U+0009..U+000D, U+001C..U+0020,
    U+0085 and U+00A0. *)
Definition is_space (c : ascii) : bool :=
  in_range 9 13 c || in_range 28 32 c
  || (code c =? 133)%N || (code c =? 160)%N.

(** The class of the pattern that excludes [\s], the apostrophe
    (U+0027) and the double quote (U+0022). *)
Definition url_char (c : ascii) : bool :=
  negb (is_space c || (code c =? 39)%N || (code c =? 34)%N).

(** The pattern of [extract_pdf_urls] is [https?://], one or more
    [url_char], [/pdf/\?productID=], then [\d+]. The functions below run
    it as the backtracking matcher does; each returns the number of
    characters matched at the start of its argument. *)

(** The literal in the middle of the pattern. *)
Definition pdf_literal : string := "/pdf/?productID=".

(** [\d+] at the end of the pattern: every digit that follows. *)
Fixpoint digits_len (s : string) : nat :=
  match s with
  | String c s' => if is_digit c then S (digits_len s') else 0
  | EmptyString => 0
  end.

(** [/pdf/\?productID=\d+] *)
Definition match_tail (s : string) : option nat :=
  match strip_prefix pdf_literal s with
  | Some r =>
      match digits_len r with
      | 0 => None
      | S d => Some (String.length pdf_literal + S d)
      end
  | None => None
  end.

(** Zero or more [url_char] and then the tail. The repetition is
    greedy: one more character is taken first, and the tail is tried
    here only when no longer repetition leads to a match. *)
Fixpoint match_star (s : string) : option nat :=
  match s with
  | String c s' =>
      if url_char c
      then match match_star s' with
           | Some n => Some (S n)
           | None => match_tail s
           end
      else match_tail s
  | EmptyString => match_tail s
  end.

(** One or more [url_char] and then the tail. *)
Definition match_plus (s : string) : option nat :=
  match s with
  | String c s' => if url_char c then option_map S (match_star s') else None
  | EmptyString => None
  end.

(** [://] and what follows it. *)
Definition match_after_scheme (s : string) : option nat :=
  match strip_prefix "://" s with
  | Some r => option_map (Nat.add 3) (match_plus r)
  | None => None
  end.

(** The whole pattern at the start of [s]; [s?] takes the [s] first. *)
Definition match_here (s : string) : option nat :=
  match strip_prefix "http" s with
  | Some r =>
      let with_s :=
        match r with
        | String c r' =>
            if Ascii.eqb c "s"
            then option_map (Nat.add 5) (match_after_scheme r')
            else None
        | EmptyString => None
        end in
      match with_s with
      | Some n => Some n
      | None => option_map (Nat.add 4) (match_after_scheme r)
      end
  | None => None
  end.

(** [pattern.findall(s)]: the matches from left to right, none
    overlapping another. [inside] counts the characters of [s] that
    still belong to the match found last. *)
Fixpoint findall_from (inside : nat) (s : string) : list string :=
  match s with
  | EmptyString => []
  | String _ s' =>
      match inside with
      | S k => findall_from k s'
      | 0 =>
          match match_here s with
          | Some n => take n s :: findall_from (n - 1) s'
          | None => findall_from 0 s'
          end
      end
  end.

Definition findall (s : string) : list string := findall_from 0 s.

End Re.

(* ===================================================================== *)
(** ** [posixpath] *)
(* ===================================================================== *)

Module PosixPath.
Import PyStr.

(** [os.path.basename(p)]: [p[p.rfind('/') + 1:]] *)
Definition basename (p : string) : string :=
  match rpartition "/" p with
  | Some (_, tail) => tail
  | None => p
  end.

(** [os.path.splitext(p)[1]] for a [p] without a slash: the text from
    the last dot on, unless only dots precede that dot. *)
Definition splitext_ext (p : string) : string :=
  match rpartition "." p with
  | Some (root, e) =>
      if sforall (fun c => Ascii.eqb c ".") root then EmptyString
      else String "." e
  | None => EmptyString
  end.

End PosixPath.

(* ===================================================================== *)
(** ** [ipaddress]: what [ip_address] accepts *)
(* ===================================================================== *)

Module IpAddress.
Import PyStr.

(** [_HEX_DIGITS]: [0-9], [A-F], [a-f]. *)
Definition is_hex_digit (c : ascii) : bool :=
  is_digit c || in_range 65 70 c || in_range 97 102 c.

(** [int(s, 10)] for a text of decimal digits. *)
Fixpoint int10_from (acc : N) (s : string) : N :=
  match s with
  | EmptyString => acc
  | String c s' => int10_from (acc * 10 + (code c - 48))%N s'
  end.

Definition int10 (s : string) : N := int10_from 0%N s.

(** [_BaseV4._parse_octet]: a decimal number of one to three ASCII
    digits, without a leading zero, at most 255; [None] where it
    raises. *)
Definition parse_octet (octet_str : string) : option N :=
  if negb (truthy octet_str) then None
  else if negb (sforall is_digit octet_str) then None
  else if (3 <? String.length octet_str)%nat then None
  else if negb (String.eqb octet_str "0") && startswith "0" octet_str then None
  else if (255 <? int10 octet_str)%N then None
  else Some (int10 octet_str).

(** [IPv4Address(address)._ip]: four octets between dots; [None] where
    the constructor raises [AddressValueError]. *)
Definition ipv4_int (address : string) : option N :=
  if contains_char "/" address then None
  else if negb (truthy address) then None
  else match map parse_octet (split "." address) with
       | [Some a; Some b; Some c; Some d] =>
           Some (((a * 256 + b) * 256 + c) * 256 + d)%N
       | _ => None
       end.

(** ['%x' % n] for a number below 65536. *)
Definition format_x (n : N) : string :=
  let digit (k : N) := hex_digit_of ((n / k) mod 16)%N in
  if (n <? 16)%N then String (digit 1%N) EmptyString
  else if (n <? 256)%N then String (digit 16%N) (String (digit 1%N) EmptyString)
  else if (n <? 4096)%N
  then String (digit 256%N) (String (digit 16%N) (String (digit 1%N) EmptyString))
  else String (digit 4096%N)
         (String (digit 256%N) (String (digit 16%N) (String (digit 1%N) EmptyString))).

(** [_BaseV6._parse_hextet] returns: one to four hexadecimal digits
    ([int('', 16)] raises). *)
Definition parse_hextet_ok (hextet_str : string) : bool :=
  sforall is_hex_digit hextet_str
  && (String.length hextet_str <=? 4)%nat
  && truthy hextet_str.

(** [IPv6Address._split_scope_id]: the address in front of the first
    [%]; [None] where it raises (an empty scope, or a second [%]). *)
Definition split_scope_id (ip_str : string) : option string :=
  match partition "%" ip_str with
  | None => Some ip_str
  | Some (addr, scope_id) =>
      if negb (truthy scope_id) || contains_char "%" scope_id then None
      else Some addr
  end.

(** The step of [_ip_int_from_string] for an IPv4-style suffix: when the
    last part holds a dot it must be an IPv4 address, and two hextets
    take its place. *)
Definition with_ipv4_suffix (parts : list string) : option (list string) :=
  let last_part := List.last parts EmptyString in
  if contains_char "." last_part then
    match ipv4_int last_part with
    | None => None
    | Some ipv4 =>
        Some (List.removelast parts
              ++ [format_x ((ipv4 / 65536) mod 65536)%N; format_x (ipv4 mod 65536)%N])
    end
  else Some parts.

(** The rest of [_BaseV6._ip_int_from_string], on the parts between the
    colons: [true] when it returns. *)
Definition hextets_ok (parts : list string) : bool :=
  let n := length parts in
  if (9 <? n)%nat then false
  else
    let empty (i : nat) := negb (truthy (nth i parts EmptyString)) in
    match List.filter empty (seq 1 (n - 2)) with
    | _ :: _ :: _ => false
    | [skip_index] =>
        let first_empty := empty 0 in
        let last_empty := empty (n - 1) in
        let parts_hi := if first_empty then skip_index - 1 else skip_index in
        let parts_lo :=
          if last_empty then n - skip_index - 1 - 1 else n - skip_index - 1 in
        if first_empty && (0 <? parts_hi)%nat then false
        else if last_empty && (0 <? parts_lo)%nat then false
        else if (8 <=? parts_hi + parts_lo)%nat then false
        else forallb parse_hextet_ok (firstn parts_hi parts)
             && forallb parse_hextet_ok (skipn (n - parts_lo) parts)
    | [] =>
        (n =? 8)%nat && negb (empty 0) && negb (empty (n - 1))
        && forallb parse_hextet_ok parts
    end.

(** [IPv6Address(address)] returns. *)
Definition ipv6_ok (address : string) : bool :=
  if contains_char "/" address then false
  else match split_scope_id address with
       | None => false
       | Some addr_str =>
           if negb (truthy addr_str) then false
           else
             let parts := split ":" addr_str in
             if (length parts <? 3)%nat then false
             else match with_ipv4_suffix parts with
                  | None => false
                  | Some parts' => hextets_ok parts'
                  end
       end.

Inductive version : Type := IPv4 | IPv6.

(** [ip_address(address)]: an IPv4 address if it reads as one, else an
    IPv6 address if it reads as one; [None] where it raises
    [ValueError]. *)
Definition ip_address (address : string) : option version :=
  match ipv4_int address with
  | Some _ => Some IPv4
  | None => if ipv6_ok address then Some IPv6 else None
  end.

End IpAddress.

(* ===================================================================== *)
(** ** [urllib.parse] *)
(* ===================================================================== *)

Module UrlLib.
Import PyStr.

Record ParseResult : Type := mkParseResult {
  scheme : string;
  netloc : string;
  path : string;
  params : string;
  query : string;
  fragment : string
}.

(** [scheme_chars]: ASCII letters, digits and ["+-."]. *)
Definition scheme_char (c : ascii) : bool :=
  is_lower_az c || is_upper_az c || is_digit c
  || Ascii.eqb c "+" || Ascii.eqb c "-" || Ascii.eqb c ".".

(** [_UNSAFE_URL_BYTES_TO_REMOVE]: tab, carriage return, newline. *)
Definition unsafe_byte (c : ascii) : bool :=
  (code c =? 9)%N || (code c =? 13)%N || (code c =? 10)%N.

Definition netloc_delim (c : ascii) : bool :=
  Ascii.eqb c "/" || Ascii.eqb c "?" || Ascii.eqb c "#".

Definition uses_params : list string :=
  [""; "ftp"; "hdl"; "prospero"; "http"; "imap"; "https"; "shttp";
   "rtsp"; "rtspu"; "sip"; "sips"; "mms"; "sftp"; "tel"]%string.

Definition in_uses_params (s : string) : bool :=
  existsb (String.eqb s) uses_params.

(** [_WHATWG_C0_CONTROL_OR_SPACE]: U+0000..U+0020. *)
Definition c0_control_or_space (c : ascii) : bool := (code c <=? 32)%N.

(** [c.isascii() and c.isalpha()] *)
Definition is_ascii_letter (c : ascii) : bool := is_lower_az c || is_upper_az c.

(** The scheme step of [urlsplit]: [i = url.find(':')], and when
    [i > 0], [url[0]] is an ASCII letter and [url[:i]] has scheme
    characters only, the scheme is [url[:i].lower()] and the text after
    the colon remains. *)
Definition split_scheme (url : string) : string * string :=
  match partition ":" url with
  | Some (pre, post) =>
      let first_is_letter :=
        match pre with
        | String c _ => is_ascii_letter c
        | EmptyString => false
        end in
      if truthy pre && first_is_letter && sforall scheme_char pre
      then (lower pre, post)
      else (EmptyString, url)
  | None => (EmptyString, url)
  end.

(** [re.match] of [hostname] with the pattern [\Av[a-fA-F0-9]+\..+\Z]:
    the letter [v], hexadecimal digits up to the first dot, at least one
    of them, and after that dot at least one character and no newline
    (the dot of the pattern matches everything but a newline). *)
Definition ipvfuture_match (hostname : string) : bool :=
  match strip_prefix "v" hostname with
  | Some rest =>
      match partition "." rest with
      | Some (digits, tail) =>
          truthy digits && sforall IpAddress.is_hex_digit digits
          && truthy tail && negb (contains_char (ascii_of_N 10) tail)
      | None => false
      end
  | None => false
  end.

(** [_check_bracketed_host(hostname)] *)
Definition check_bracketed_host (hostname : string) : result unit :=
  if startswith "v" hostname then
    if ipvfuture_match hostname then Ok tt
    else Raise (ValueError "IPvFuture address is invalid")
  else
    match IpAddress.ip_address hostname with
    | Some IpAddress.IPv4 => Raise (ValueError "An IPv4 address cannot be in brackets")
    | Some IpAddress.IPv6 => Ok tt
    | None =>
        Raise (ValueError
                 (repr hostname +:+ " does not appear to be an IPv4 or IPv6 address"))
    end.

(** [_check_bracketed_netloc(netloc)] *)
Definition check_bracketed_netloc (nl : string) : result unit :=
  let hostname_and_port :=
    match rpartition "@" nl with
    | Some (_, after) => after
    | None => nl
    end in
  match partition "[" hostname_and_port with
  | Some (before_bracket, bracketed) =>
      if truthy before_bracket then Raise (ValueError "Invalid IPv6 URL")
      else
        let '(hostname, port) :=
          match partition "]" bracketed with
          | Some (h, p) => (h, p)
          | None => (bracketed, EmptyString)
          end in
        if truthy port && negb (startswith ":" port)
        then Raise (ValueError "Invalid IPv6 URL")
        else check_bracketed_host hostname
  | None =>
      let hostname :=
        match partition ":" hostname_and_port with
        | Some (h, _) => h
        | None => hostname_and_port
        end in
      check_bracketed_host hostname
  end.

(** [if url[:2] == '//': netloc, url = _splitnetloc(url, 2)], with the
    two checks of the square brackets. *)
Definition split_netloc (url : string) : result (string * string) :=
  match strip_prefix "//" url with
  | Some rest =>
      let '(nl, url') := break netloc_delim rest in
      let lb := contains_char "[" nl in
      let rb := contains_char "]" nl in
      if (lb && negb rb) || (rb && negb lb)
      then Raise (ValueError "Invalid IPv6 URL")
      else if lb && rb
      then match check_bracketed_netloc nl with
           | Raise e => Raise e
           | Ok _ => Ok (nl, url')
           end
      else Ok (nl, url')
  | None => Ok (EmptyString, url)
  end.

(** [if c in url: url, x = url.split(c, 1)] *)
Definition split_off (c : ascii) (url : string) : string * string :=
  match partition c url with
  | Some (l, r) => (l, r)
  | None => (url, EmptyString)
  end.

(** [urlsplit(url)] as in the current releases of CPython (with the
    fixes for leading blanks and for hosts in square brackets): the
    leading controls and spaces are stripped, then tabs and line breaks
    are removed everywhere. [_checknetloc], the last step, never raises
    on code points below 256: the NFKC form of such a character holds
    none of [/?#@:]. *)
Definition urlsplit (url : string) : result ParseResult :=
  let url0 := lstrip_class c0_control_or_space url in
  let url1 := sfilter (fun c => negb (unsafe_byte c)) url0 in
  let '(sch, url2) := split_scheme url1 in
  match split_netloc url2 with
  | Raise e => Raise e
  | Ok (nl, url3) =>
      let '(url4, frag) := split_off "#" url3 in
      let '(url5, qry) := split_off "?" url4 in
      Ok (mkParseResult sch nl url5 EmptyString qry frag)
  end.

(** [_splitparams(url)], called when [';' in url]. *)
Definition splitparams (url : string) : string * string :=
  match rpartition "/" url with
  | Some (head, tail) =>
      match partition ";" tail with
      | Some (a, b) => (head +:+ String "/" a, b)
      | None => (url, EmptyString)
      end
  | None => split_off ";" url
  end.

(** [urlparse(url)] *)
Definition urlparse (url : string) : result ParseResult :=
  match urlsplit url with
  | Raise e => Raise e
  | Ok r =>
      if in_uses_params (scheme r) && contains_char ";" (path r)
      then let '(p, prm) := splitparams (path r) in
           Ok (mkParseResult (scheme r) (netloc r) p prm (query r) (fragment r))
      else Ok r
  end.

End UrlLib.

(* ===================================================================== *)
(** ** [main.py]: the pure helpers *)
(* ===================================================================== *)

Import PyStr.

(** [get_filename]: [os.path.basename(urlparse(url).path)] *)
Definition get_filename (url : string) : result string :=
  match UrlLib.urlparse url with
  | Raise e => Raise e
  | Ok r => Ok (PosixPath.basename (UrlLib.path r))
  end.

(** The stem of [url_to_filename]: both substitutions, the strip, and
    the removal of a final [_pdf]. *)
Definition sanitize (lower_name : string) : string :=
  let safe := Re.sub_non_alnum lower_name in
  let safe := strip "_" (Re.sub_underscores safe) in
  if endswith "_pdf" safe then drop_last 4 safe else safe.

(** [if not ext: ext = ".pdf"] *)
Definition ext_or_default (ext : string) : string :=
  if truthy ext then ext else ".pdf"%string.

(** The part of [url_to_filename] after [get_filename]. *)
Definition filename_of_basename (lower_name : string) : string :=
  let ext := PosixPath.splitext_ext lower_name in
  let safe := sanitize lower_name in
  let ext := ext_or_default ext in
  if negb (endswith ".pdf" safe) then safe +:+ ext else safe.

Definition url_to_filename (raw_url : string) : result string :=
  match get_filename (lower raw_url) with
  | Raise e => Raise e
  | Ok lower_name => Ok (filename_of_basename lower_name)
  end.

(** [remove_duplicates]: [list(dict.fromkeys(seq))]. A [dict] keeps its
    keys in the order of their first insertion; inserting a key that is
    present leaves the order as it is. *)
Definition dict_add_key (d : list string) (k : string) : list string :=
  if existsb (String.eqb k) d then d else d ++ [k].

Definition dict_fromkeys (seq : list string) : list string :=
  fold_left dict_add_key seq [].

Definition remove_duplicates (seq : list string) : list string :=
  dict_fromkeys seq.

(** [is_url_valid]: [all([result.scheme, result.netloc])], and [False]
    when [urlparse] raises. *)
Definition is_url_valid (url : string) : bool :=
  match UrlLib.urlparse url with
  | Ok r => truthy (UrlLib.scheme r) && truthy (UrlLib.netloc r)
  | Raise _ => false
  end.

(* ===================================================================== *)
(** ** The outside world *)
(* ===================================================================== *)

(** [Path(output_dir) / filename]: a directory and a name in it. *)
Abbreviation FilePath := (string * string)%type.

(** What [print] writes. The wording of each line is in [main.py]; here a
    line is named by its condition and carries the values it shows. *)
Inductive message : Type :=
  | MsgErrorCreatingDirectory (path : string) (e : exn)
  | MsgFileExistsSkipping (filepath : FilePath)
  | MsgInvalidContentType (url content_type : string)
  | MsgDownloaded (url : string) (filepath : FilePath)
  | MsgFailedToDownload (url : string) (e : exn)
  | MsgScraping (uri : string)
  | MsgErrorScraping (uri : string) (e : exn)
  | MsgNoPdfUrlsFound
  | MsgSeleniumError (url : string) (e : exn).

(** What the program does to the outside, in the order it does it. *)
Inductive event : Type :=
  | Printed (m : message)
  | HttpGet (url : string) (timeout : nat) (stream : bool)
  | FileOpened (filepath : FilePath)
  | BrowserStarted
  | BrowserNavigated (url : string)
  | BrowserQuit
  | Slept (seconds : nat).

(** A response of [requests.get]: the status code, the [Content-Type]
    header when there is one, the body as the chunks [iter_content]
    yields, and whether reading the body breaks after the last of them. *)
Record Response : Type := mkResponse {
  status_code : N;
  content_type_header : option string;
  body_chunks : list string;
  body_breaks : bool
}.

(** The answers of the outside world; the first argument of each is the
    number of outside calls made before this one. *)
Record Env : Type := mkEnv {
  env_requests_get : nat -> string -> result Response;
  env_makedirs : nat -> string -> result unit;
  env_open_wb : nat -> FilePath -> result unit;
  env_chrome : nat -> result unit;
  env_set_page_load_timeout : nat -> result unit;
  env_driver_get : nat -> string -> result unit;
  env_current_url : nat -> string -> result string
}.

Record World : Type := mkWorld {
  dirs : gset string;               (* the directories on disk *)
  files : gmap FilePath string;     (* the regular files and their bytes *)
  sessions : nat;                   (* browser sessions that are open *)
  clock : nat;                      (* outside calls made so far *)
  trace : list event
}.

(* ===================================================================== *)
(** ** State and exceptions *)
(* ===================================================================== *)

Definition M (A : Type) : Type := World -> result A * World.

Definition ret {A} (a : A) : M A := fun w => (Ok a, w).

Definition raise {A} (e : exn) : M A := fun w => (Raise e, w).

Definition bind {A B} (m : M A) (k : A -> M B) : M B :=
  fun w =>
    match m w with
    | (Ok a, w') => k a w'
    | (Raise e, w') => (Raise e, w')
    end.

Declare Scope py_scope.
Delimit Scope py_scope with py.
Notation "x <- m ;; k" := (bind m (fun x => k))
  (at level 65, m at next level, right associativity) : py_scope.
Notation "m ;;; k" := (bind m (fun _ => k))
  (at level 65, right associativity) : py_scope.
Local Open Scope py_scope.

Definition lift {A} (r : result A) : M A := fun w => (r, w).

(** [try: body except Exception as e: handler e] *)
Definition try_except {A} (body : M A) (handler : exn -> M A) : M A :=
  fun w =>
    match body w with
    | (Ok a, w') => (Ok a, w')
    | (Raise e, w') => handler e w'
    end.

(** [try: body finally: cleanup] *)
Definition try_finally {A} (body : M A) (cleanup : M unit) : M A :=
  fun w =>
    let '(r, w') := body w in
    match cleanup w' with
    | (Ok _, w'') => (r, w'')
    | (Raise e, w'') => (Raise e, w'')
    end.

Fixpoint for_each {A} (l : list A) (body : A -> M unit) : M unit :=
  match l with
  | [] => ret tt
  | x :: l' => body x ;;; for_each l' body
  end.

Fixpoint map_each {A B} (l : list A) (body : A -> M B) : M (list B) :=
  match l with
  | [] => ret []
  | x :: l' => y <- body x ;; ys <- map_each l' body ;; ret (y :: ys)
  end.

(** Primitive steps. *)
Definition emit (ev : event) : M unit :=
  fun w => (Ok tt, mkWorld (dirs w) (files w) (sessions w) (clock w) (trace w ++ [ev])).

Definition print (m : message) : M unit := emit (Printed m).

(** Ask the outside world: read the clock and advance it. *)
Definition ask {A} (answer : nat -> result A) : M A :=
  fun w => (answer (clock w),
            mkWorld (dirs w) (files w) (sessions w) (S (clock w)) (trace w)).

Definition set_sessions (f : nat -> nat) : M unit :=
  fun w => (Ok tt, mkWorld (dirs w) (files w) (f (sessions w)) (clock w) (trace w)).

Definition add_dir (d : string) : M unit :=
  fun w => (Ok tt, mkWorld ({[ d ]} ∪ dirs w) (files w) (sessions w) (clock w) (trace w)).

Definition set_file (p : FilePath) (bytes : string) : M unit :=
  fun w => (Ok tt, mkWorld (dirs w) (<[ p := bytes ]> (files w)) (sessions w) (clock w) (trace w)).

Definition append_file (p : FilePath) (bytes : string) : M unit :=
  fun w => (Ok tt, mkWorld (dirs w)
                     (<[ p := default EmptyString (files w !! p) +:+ bytes ]> (files w))
                     (sessions w) (clock w) (trace w)).

(* ===================================================================== *)
(** ** [requests], [open] and [selenium] *)
(* ===================================================================== *)

(** [requests.get(url, timeout=t, stream=b)]. Without [stream] the body
    is read before [get] returns, so a body that breaks makes [get]
    raise. *)
Definition requests_get (env : Env) (url : string) (timeout : nat) (stream : bool)
  : M Response :=
  emit (HttpGet url timeout stream) ;;;
  resp <- ask (fun n => env_requests_get env n url) ;;
  if negb stream && body_breaks resp then raise RequestException else ret resp.

(** [resp.raise_for_status()]: [HTTPError] for a status from 400 to 599. *)
Definition is_error_status (status : N) : bool :=
  (400 <=? status)%N && (status <? 600)%N.

Definition raise_for_status (resp : Response) : M unit :=
  if is_error_status (status_code resp)
  then raise (HTTPError (status_code resp))
  else ret tt.

(** [resp.headers.get("Content-Type", "")] *)
Definition content_type_of (resp : Response) : string :=
  default EmptyString (content_type_header resp).

(** [resp.text] *)
Definition response_text (resp : Response) : string :=
  String.concat EmptyString (body_chunks resp).

(** [with open(filepath, "wb") as f: for chunk in resp.iter_content(8192):
    f.write(chunk)]. Opening fails when the directory is missing or the
    system refuses; once opened the file exists, empty, and grows by the
    chunks read until the body ends or breaks. *)
Definition write_body (env : Env) (filepath : FilePath) (resp : Response) : M unit :=
  has_dir <- (fun w => (Ok (bool_decide (filepath.1 ∈ dirs w)), w)) ;;
  (if has_dir : bool then ask (fun n => env_open_wb env n filepath) else raise OSError) ;;;
  emit (FileOpened filepath) ;;;
  set_file filepath EmptyString ;;;
  for_each (body_chunks resp) (append_file filepath) ;;;
  if body_breaks resp then raise RequestException else ret tt.

(** [webdriver.Chrome(options=chrome_options)] *)
Definition webdriver_Chrome (env : Env) : M unit :=
  ask (env_chrome env) ;;;
  set_sessions S ;;;
  emit BrowserStarted.

Definition driver_set_page_load_timeout (env : Env) : M unit :=
  ask (env_set_page_load_timeout env).

Definition driver_get (env : Env) (url : string) : M unit :=
  emit (BrowserNavigated url) ;;;
  ask (fun n => env_driver_get env n url).

Definition driver_current_url (env : Env) (url : string) : M string :=
  ask (fun n => env_current_url env n url).

(** [driver.quit()]: selenium's Chromium driver swallows what goes wrong
    while quitting. *)
Definition driver_quit : M unit :=
  set_sessions Nat.pred ;;;
  emit BrowserQuit.

Definition time_sleep (seconds : nat) : M unit := emit (Slept seconds).

(* ===================================================================== *)
(** ** [main.py]: the functions with effects *)
(* ===================================================================== *)

Definition directory_exists (path : string) : M bool :=
  fun w => (Ok (bool_decide (path ∈ dirs w)), w).

Definition create_directory (env : Env) (path : string) : M unit :=
  try_except
    (ask (fun n => env_makedirs env n path) ;;; add_dir path)
    (fun e => print (MsgErrorCreatingDirectory path e)).

Definition file_exists (filepath : FilePath) : M bool :=
  fun w => (Ok (bool_decide (is_Some (files w !! filepath))), w).

Definition get_final_url (env : Env) (input_url : string) : M string :=
  webdriver_Chrome env ;;;
  driver_set_page_load_timeout env ;;;
  try_finally
    (try_except
       (driver_get env input_url ;;;
        time_sleep 2 ;;;
        driver_current_url env input_url)
       (fun e =>
          print (MsgSeleniumError input_url e) ;;;
          ret EmptyString))
    driver_quit.

Definition acceptable_content_type (content_type : string) : bool :=
  contains "application/pdf" content_type || contains "text/html" content_type.

Definition download_pdf (env : Env) (final_url output_dir : string) : M bool :=
  filename <- lift (url_to_filename final_url) ;;
  let filepath : FilePath := (output_dir, filename) in
  present <- file_exists filepath ;;
  if present : bool then
    print (MsgFileExistsSkipping filepath) ;;;
    ret false
  else
    try_except
      (resp <- requests_get env final_url 900 true ;;
       raise_for_status resp ;;;
       let content_type := content_type_of resp in
       if negb (acceptable_content_type content_type) then
         print (MsgInvalidContentType final_url content_type) ;;;
         ret false
       else
         write_body env filepath resp ;;;
         print (MsgDownloaded final_url filepath) ;;;
         ret true)
      (fun e =>
         print (MsgFailedToDownload final_url e) ;;;
         ret false).

Definition get_data_from_url (env : Env) (uri : string) : M string :=
  print (MsgScraping uri) ;;;
  try_except
    (resp <- requests_get env uri 60 false ;;
     raise_for_status resp ;;;
     ret (response_text resp))
    (fun e =>
       print (MsgErrorScraping uri e) ;;;
       ret EmptyString).

Definition extract_pdf_urls (html : string) : M (list string) :=
  let matches := Re.findall html in
  (if bool_decide (matches = []) then print MsgNoPdfUrlsFound else ret tt) ;;;
  ret matches.

(** The loop of [main] over the candidate links. *)
Definition resolve_and_download (env : Env) (output_dir : string)
    (final_pdf_list : list string) : M unit :=
  for_each final_pdf_list (fun pdf_url =>
    resolved_url <- get_final_url env pdf_url ;;
    if is_url_valid resolved_url
    then download_pdf env resolved_url output_dir ;;; ret tt
    else ret tt).

(** [main], with the literal list [remote_api_urls] as its argument. *)
Definition main (env : Env) (remote_api_urls : list string) : M unit :=
  let output_dir := "PDFs"%string in
  present <- directory_exists output_dir ;;
  (if negb present then create_directory env output_dir else ret tt) ;;;
  get_data <- map_each remote_api_urls (get_data_from_url env) ;;
  final_pdf_list <- extract_pdf_urls (String.concat EmptyString get_data) ;;
  let final_pdf_list := remove_duplicates final_pdf_list in
  resolve_and_download env output_dir final_pdf_list.

(* ===================================================================== *)
(** ** Notions used in the statements *)
(* ===================================================================== *)

(** *** Filenames *)

(** A character of [[a-z0-9_]]. *)
Definition safe_char (c : ascii) : bool :=
  is_lower_az c || is_digit c || Ascii.eqb c "_".

(** The form [^[a-z0-9_]+\.(ext)$]: a stem of one or more safe
    characters, a dot, an extension. *)
Definition sanitized_form (f : string) : Prop :=
  exists stem ext : string,
    f = stem +:+ String "." ext /\ stem <> EmptyString /\ sforall safe_char stem = true.

(** The same with a stem that may be empty: [^[a-z0-9_]*\.(ext)$]. *)
Definition sanitized_form_opt_stem (f : string) : Prop :=
  exists stem ext : string,
    f = stem +:+ String "." ext /\ sforall safe_char stem = true.

(** *** Lower case and [urlparse] *)

(** A character that [str.lower] neither changes nor produces from
    another one. *)
Definition case_free (c : ascii) : Prop :=
  forall a, Ascii.eqb (lower_char a) c = Ascii.eqb a c.

(** Both halves of a split in lower case. *)
Definition lower_pair (p : string * string) : string * string :=
  (lower p.1, lower p.2).


(** *** Paths that end in a directory *)

Definition query_or_fragment_mark (c : ascii) : bool :=
  Ascii.eqb c "?" || Ascii.eqb c "#".

(** The text in front of the first [?] or [#]. *)
Definition before_query (url : string) : string :=
  (break query_or_fragment_mark url).1.

(** [s[-1]], when [s] is not empty. *)
Fixpoint last_char (s : string) : option ascii :=
  match s with
  | EmptyString => None
  | String a s' => match last_char s' with Some c => Some c | None => Some a end
  end.

(** Empty, or with a slash as its last character. *)
Definition ends_in_dir (s : string) : bool :=
  match last_char s with
  | None => true
  | Some c => Ascii.eqb c "/"
  end.

(** The invariant of [urlsplit]: what lies in front of the query ends in
    a directory. *)
Definition dir_before_query (url : string) : Prop :=
  ends_in_dir (before_query url) = true.

(** The links the pattern of [extract_pdf_urls] is written for. *)
Definition product_link (prefix digits : string) : string :=
  prefix +:+ "/pdf/?productID=" +:+ digits.

(** *** Worlds and traces *)

(** The world with more events in its trace. *)
Definition push (ev : list event) (w : World) : World :=
  mkWorld (dirs w) (files w) (sessions w) (clock w) (trace w ++ ev).

(** The world after [download_pdf] has found the file in place. *)
Definition skipped (filepath : FilePath) (w : World) : World :=
  push [Printed (MsgFileExistsSkipping filepath)] w.

(** How many times a file was opened for writing. *)
Fixpoint opened_count (tr : list event) : nat :=
  match tr with
  | [] => 0
  | FileOpened _ :: tr' => S (opened_count tr')
  | _ :: tr' => opened_count tr'
  end.

(** The HTTP requests of a trace. *)
Fixpoint requested (tr : list event) : list string :=
  match tr with
  | [] => []
  | HttpGet url _ _ :: tr' => url :: requested tr'
  | _ :: tr' => requested tr'
  end.

(** The bytes of a file after the chunks are appended to it. *)
Definition append_chunks (p : FilePath) (chunks : list string)
    (fs : gmap FilePath string) : gmap FilePath string :=
  fold_left (fun fs c => <[ p := default EmptyString (fs !! p) +:+ c ]> fs) chunks fs.

(** What [download_pdf] does when the file is not in place, written out
    case by case. *)
Definition download_fresh (env : Env) (url : string) (p : FilePath) (w : World)
  : result bool * World :=
  let w1 := mkWorld (dirs w) (files w) (sessions w) (S (clock w))
              (trace w ++ [HttpGet url 900 true]) in
  let failed e w' := (Ok false, push [Printed (MsgFailedToDownload url e)] w') in
  match env_requests_get env (clock w) url with
  | Raise e => failed e w1
  | Ok resp =>
      if is_error_status (status_code resp)
      then failed (HTTPError (status_code resp)) w1
      else if negb (acceptable_content_type (content_type_of resp))
      then (Ok false, push [Printed (MsgInvalidContentType url (content_type_of resp))] w1)
      else if bool_decide (p.1 ∈ dirs w)
      then
        match env_open_wb env (S (clock w)) p with
        | Raise e =>
            failed e (mkWorld (dirs w) (files w) (sessions w) (S (S (clock w)))
                        (trace w ++ [HttpGet url 900 true]))
        | Ok _ =>
            let w3 := mkWorld (dirs w)
                        (append_chunks p (body_chunks resp) (<[ p := EmptyString ]> (files w)))
                        (sessions w) (S (S (clock w)))
                        (trace w ++ [HttpGet url 900 true; FileOpened p]) in
            if body_breaks resp then failed RequestException w3
            else (Ok true, push [Printed (MsgDownloaded url p)] w3)
        end
      else failed OSError w1
  end.

(** [get_final_url] once the browser is up ([webdriver.Chrome] and
    [set_page_load_timeout] have returned), case by case. *)
Definition resolved (env : Env) (url : string) (w : World) : result string * World :=
  let c := S (S (clock w)) in
  let world n evs :=
    mkWorld (dirs w) (files w) (sessions w) n (trace w ++ BrowserStarted :: evs) in
  match env_driver_get env c url with
  | Raise e =>
      (Ok EmptyString,
       world (S c) [BrowserNavigated url; Printed (MsgSeleniumError url e); BrowserQuit])
  | Ok _ =>
      match env_current_url env (S c) url with
      | Raise e =>
          (Ok EmptyString,
           world (S (S c))
             [BrowserNavigated url; Slept 2; Printed (MsgSeleniumError url e); BrowserQuit])
      | Ok final_url =>
          (Ok final_url, world (S (S c)) [BrowserNavigated url; Slept 2; BrowserQuit])
      end
  end.

(** The links the browser was sent to, and the pages whose scraping was
    announced. *)
Fixpoint navigated (tr : list event) : list string :=
  match tr with
  | [] => []
  | BrowserNavigated url :: tr' => url :: navigated tr'
  | _ :: tr' => navigated tr'
  end.

Fixpoint scraped (tr : list event) : list string :=
  match tr with
  | [] => []
  | Printed (MsgScraping uri) :: tr' => uri :: scraped tr'
  | _ :: tr' => scraped tr'
  end.

(** The first two statements of [main]: the output directory. *)
Definition ensure_output_dir (env : Env) (output_dir : string) : M unit :=
  present <- directory_exists output_dir ;;
  if negb present then create_directory env output_dir else ret tt.


(** What the pattern of [extract_pdf_urls] describes: [http] or [https],
    [://], one or more characters that are neither white space nor
    quotes, the literal [/pdf/?productID=], one or more digits. *)
Definition pdf_link_shape (m : string) : Prop :=
  exists scheme body digits : string,
    (scheme = "http"%string \/ scheme = "https"%string)
    /\ m = scheme +:+ "://" +:+ body +:+ Re.pdf_literal +:+ digits
    /\ body <> EmptyString /\ sforall Re.url_char body = true
    /\ digits <> EmptyString /\ sforall is_digit digits = true.

(** *** One page, one link, a few worlds *)

Definition example_link : string :=
  "https://churchdwight.com/pdf/?productID=40002569".

(** A page that holds [example_link] three times. *)
Definition html_three_times : string :=
  "<li><a href='https://churchdwight.com/pdf/?productID=40002569'>English</a></li> <li><a href='https://churchdwight.com/pdf/?productID=40002569'>French</a></li> <p>https://churchdwight.com/pdf/?productID=40002569 </p>".

(** A world with nothing on disk and nothing done yet. *)
Definition empty_world : World := mkWorld ∅ ∅ 0 0 [].

(** One of the pages of [remote_api_urls]. *)
Definition example_seed : string :=
  "https://churchdwight.com/ingredient-disclosure/cleaning-products/42000845-ah-Baking-Soda.aspx".

(** A world in which everything works: the seed page holds
    [example_link] three times, every other URL serves a PDF, and the
    browser stays on the address it is sent to. *)
Definition example_env : Env := {|
  env_requests_get := fun _ url =>
    if String.eqb url example_seed
    then Ok (mkResponse 200 (Some "text/html; charset=utf-8"%string) [html_three_times] false)
    else Ok (mkResponse 200 (Some "application/pdf"%string)
               ["%PDF-1.7 "%string; "%%EOF"%string] false);
  env_makedirs := fun _ _ => Ok tt;
  env_open_wb := fun _ _ => Ok tt;
  env_chrome := fun _ => Ok tt;
  env_set_page_load_timeout := fun _ => Ok tt;
  env_driver_get := fun _ _ => Ok tt;
  env_current_url := fun _ url => Ok url
|}.


(** The same world with a server that fails the first request made and
    serves the PDF from then on. *)
Definition example_env_flaky : Env := {|
  env_requests_get := fun n url =>
    match n with
    | 0 => Ok (mkResponse 503 (Some "text/html"%string) [] false)
    | S _ => env_requests_get example_env n url
    end;
  env_makedirs := env_makedirs example_env;
  env_open_wb := env_open_wb example_env;
  env_chrome := env_chrome example_env;
  env_set_page_load_timeout := env_set_page_load_timeout example_env;
  env_driver_get := env_driver_get example_env;
  env_current_url := env_current_url example_env
|}.

(** A world with the output directory and nothing in it. *)
Definition world_with_dir : World := mkWorld {[ "PDFs"%string ]} ∅ 0 0 [].

(** *** What a step leaves as it is *)

(** A step that takes every world to one related to it by [R], whether
    it returns or raises. *)
Definition preserves (R : World -> World -> Prop) {A} (m : M A) : Prop :=
  forall w, R w (m w).2.

(** The files that are there stay, with their bytes. *)
Definition files_kept (w w' : World) : Prop :=
  forall (p : FilePath) (bytes : string),
    files w !! p = Some bytes -> files w' !! p = Some bytes.

(** Whether [get_data_from_url] gets a page out of this answer. *)
Definition page_fetched (answer : result Response) : bool :=
  match answer with
  | Ok resp => negb (body_breaks resp) && negb (is_error_status (status_code resp))
  | Raise _ => false
  end.

(** A world in which no page can be fetched. *)
Definition example_env_down : Env := {|
  env_requests_get := fun _ _ => Raise RequestException;
  env_makedirs := env_makedirs example_env;
  env_open_wb := env_open_wb example_env;
  env_chrome := env_chrome example_env;
  env_set_page_load_timeout := env_set_page_load_timeout example_env;
  env_driver_get := env_driver_get example_env;
  env_current_url := env_current_url example_env
|}.

(** A world whose output directory holds one file already. *)
Definition world_with_file : World :=
  mkWorld {[ "PDFs"%string ]} {[ ("PDFs"%string, "label.pdf"%string) := "%PDF-1.4"%string ]}
    0 0 [].

(** [get_data_from_url], case by case. *)
Definition scrape (env : Env) (uri : string) (w : World) : result string * World :=
  let w1 := mkWorld (dirs w) (files w) (sessions w) (S (clock w))
              (trace w ++ [Printed (MsgScraping uri); HttpGet uri 60 false]) in
  let failed e := (Ok EmptyString, push [Printed (MsgErrorScraping uri e)] w1) in
  match env_requests_get env (clock w) uri with
  | Raise e => failed e
  | Ok resp =>
      if body_breaks resp then failed RequestException
      else if is_error_status (status_code resp)
      then failed (HTTPError (status_code resp))
      else (Ok (response_text resp), w1)
  end.

(** No request of this world gets a page. *)
Definition no_page (env : Env) : Prop :=
  forall n uri, page_fetched (env_requests_get env n uri) = false.

(** A world whose server sends the head of the PDF and then drops the
    connection. *)
Definition example_env_broken : Env := {|
  env_requests_get := fun _ _ =>
    Ok (mkResponse 200 (Some "application/pdf"%string) ["%PDF-1.7 "%string] true);
  env_makedirs := env_makedirs example_env;
  env_open_wb := env_open_wb example_env;
  env_chrome := env_chrome example_env;
  env_set_page_load_timeout := env_set_page_load_timeout example_env;
  env_driver_get := env_driver_get example_env;
  env_current_url := env_current_url example_env
|}.

(** *** Shapes of names and of URLs *)

(** [s[0]], when [s] is not empty. *)
Definition first_char (s : string) : option ascii :=
  match s with
  | EmptyString => None
  | String a _ => Some a
  end.

(** No two underscores in a row. *)
Fixpoint no_double_underscore (s : string) : bool :=
  match s with
  | EmptyString => true
  | String a s' =>
      match s' with
      | String b _ => negb (Ascii.eqb a "_" && Ascii.eqb b "_") && no_double_underscore s'
      | EmptyString => true
      end
  end.

(** [s.count(c)] *)
Fixpoint count_char (c : ascii) (s : string) : nat :=
  match s with
  | EmptyString => 0
  | String a s' => (if Ascii.eqb a c then 1 else 0) + count_char c s'
  end.

(** A character a host name is written with here: an ASCII character
    that is not a delimiter of the network location, not a square
    bracket, and not one of the characters [urlsplit] removes. *)
Definition host_char (c : ascii) : bool :=
  (code c <? 128)%N
  && negb (UrlLib.netloc_delim c || UrlLib.unsafe_byte c
           || Ascii.eqb c "[" || Ascii.eqb c "]").

(** The text [urlsplit] works on: the URL without its leading controls
    and spaces, and without its tabs and line breaks. *)
Definition cleaned (url : string) : string :=
  sfilter (fun c => negb (UrlLib.unsafe_byte c))
    (lstrip_class UrlLib.c0_control_or_space url).

(** The lengths of the strings of a list, added up. *)
Fixpoint total_length (l : list string) : nat :=
  match l with
  | [] => 0
  | x :: l' => String.length x + total_length l'
  end.

(** The text ends here, or goes on with a character that cannot be part
    of a link: white space or a quote. *)
Definition link_ends (rest : string) : Prop :=
  match rest with
  | EmptyString => True
  | String c _ => Re.url_char c = false
  end.

(** No navigation of this world ends on an address that [is_url_valid]
    accepts: it raises, or reading the address raises, or the address
    is not a valid URL. *)
Definition no_valid_resolution (env : Env) : Prop :=
  forall n url,
    match env_driver_get env n url with
    | Raise _ => True
    | Ok _ =>
        match env_current_url env (S n) url with
        | Raise _ => True
        | Ok final_url => is_url_valid final_url = false
        end
    end.

(** A world whose browser starts but cannot load any page. *)
Definition example_env_no_navigation : Env := {|
  env_requests_get := env_requests_get example_env;
  env_makedirs := env_makedirs example_env;
  env_open_wb := env_open_wb example_env;
  env_chrome := env_chrome example_env;
  env_set_page_load_timeout := env_set_page_load_timeout example_env;
  env_driver_get := fun _ _ => Raise TimeoutException;
  env_current_url := env_current_url example_env
|}.

(** *** More pages, links and worlds *)


Definition html_two_links : string :=
  "<li><a href='https://churchdwight.com/pdf/?productID=40002569'>English</a></li> <li><a href='https://churchdwight.com/pdf/?productID=40002570'>French</a></li>".



(** A world whose seed page holds the two links and whose browser
    starts, but whose session refuses [set_page_load_timeout]. *)
Definition example_env_stalled : Env := {|
  env_requests_get := fun _ _ =>
    Ok (mkResponse 200 (Some "text/html; charset=utf-8"%string) [html_two_links] false);
  env_makedirs := env_makedirs example_env;
  env_open_wb := env_open_wb example_env;
  env_chrome := env_chrome example_env;
  env_set_page_load_timeout := fun _ => Raise WebDriverException;
  env_driver_get := env_driver_get example_env;
  env_current_url := env_current_url example_env
|}.





(* ===================================================================== *)
(** * Properties *)
(* ===================================================================== *)

(* ===================================================================== *)
(** ** Characters *)
(* ===================================================================== *)

Ltac by_ascii_cases :=
  let c := fresh "c" in
  intros c; destruct c as [[] [] [] [] [] [] [] []]; vm_compute; try reflexivity;
  try discriminate; try (intros; discriminate); auto.

Lemma safe_char_not_dot c : safe_char c = true -> Ascii.eqb c "." = false.
Proof. revert c. by_ascii_cases. Qed.

(* ===================================================================== *)
(** ** Strings *)
(* ===================================================================== *)

Lemma sforall_smap (p : ascii -> bool) (f : ascii -> ascii) s :
  (forall c, p (f c) = true) -> sforall p (smap f s) = true.
Proof.
  intros Hf. induction s as [|a s IH]; simpl; [reflexivity|].
  rewrite Hf, IH. reflexivity.
Qed.

Lemma sforall_app p s t :
  sforall p (s +:+ t) = sforall p s && sforall p t.
Proof.
  induction s as [|a s IH]; simpl; [reflexivity|].
  rewrite IH. apply andb_assoc.
Qed.

Lemma sforall_take p n s : sforall p s = true -> sforall p (take n s) = true.
Proof.
  revert s. induction n as [|n IH]; intros [|a s]; simpl; try reflexivity.
  intros H. apply andb_prop in H as [Ha Hs]. rewrite Ha. simpl. auto.
Qed.

Lemma sforall_lstrip p c s : sforall p s = true -> sforall p (lstrip c s) = true.
Proof.
  induction s as [|a s IH]; simpl; [reflexivity|].
  intros H. destruct (Ascii.eqb a c); [|exact H].
  apply andb_prop in H as [_ Hs]. auto.
Qed.

Lemma sforall_rstrip p c s : sforall p s = true -> sforall p (rstrip c s) = true.
Proof.
  induction s as [|a s IH]; simpl; [reflexivity|].
  intros H. apply andb_prop in H as [Ha Hs]. specialize (IH Hs).
  destruct (rstrip c s) as [|b r].
  - destruct (Ascii.eqb a c); simpl; [reflexivity|]. rewrite Ha. reflexivity.
  - simpl. rewrite Ha. exact IH.
Qed.

Lemma sforall_sub_underscores p s :
  sforall p s = true -> sforall p (Re.sub_underscores s) = true.
Proof.
  induction s as [|a s IH]; [reflexivity|].
  intros H. cbn [sforall] in H. apply andb_prop in H as [Ha Hs].
  specialize (IH Hs). cbn [Re.sub_underscores].
  destruct s as [|b s']; [simpl; rewrite Ha; reflexivity|].
  destruct (Ascii.eqb a "_" && Ascii.eqb b "_"); [exact IH|].
  cbn [sforall]. rewrite Ha. exact IH.
Qed.

(** The stem of a filename holds safe characters only. *)
Lemma sanitize_safe name : sforall safe_char (sanitize name) = true.
Proof.
  unfold sanitize.
  assert (H : sforall safe_char
                (strip "_" (Re.sub_underscores (Re.sub_non_alnum name))) = true).
  { unfold strip. apply sforall_rstrip, sforall_lstrip, sforall_sub_underscores.
    apply sforall_smap. by_ascii_cases. }
  destruct (endswith "_pdf" _); [|exact H].
  unfold drop_last. apply sforall_take, H.
Qed.

Lemma sforall_safe_no_dot s :
  sforall safe_char s = true -> contains_char "." s = false.
Proof.
  induction s as [|a s IH]; simpl; [reflexivity|].
  intros H. apply andb_prop in H as [Ha Hs].
  rewrite (safe_char_not_dot _ Ha). simpl. auto.
Qed.

Lemma endswith_contains_first c suf s :
  endswith (String c suf) s = true -> contains_char c s = true.
Proof.
  induction s as [|a s IH]; cbn [endswith contains_char].
  - simpl. discriminate.
  - destruct (String.eqb (String a s) (String c suf)) eqn:E.
    + apply String.eqb_eq in E. injection E as -> _.
      rewrite Ascii.eqb_refl. reflexivity.
    + intros H. rewrite (IH H). apply orb_true_r.
Qed.

Lemma sanitize_not_endswith_pdf name : endswith ".pdf" (sanitize name) = false.
Proof.
  destruct (endswith ".pdf" (sanitize name)) eqn:E; [|reflexivity].
  apply endswith_contains_first in E.
  rewrite (sforall_safe_no_dot _ (sanitize_safe name)) in E. discriminate.
Qed.

Lemma filename_of_basename_eq name :
  filename_of_basename name
  = sanitize name +:+ ext_or_default (PosixPath.splitext_ext name).
Proof.
  unfold filename_of_basename. rewrite sanitize_not_endswith_pdf. reflexivity.
Qed.

Lemma ext_or_default_dot name :
  exists e, ext_or_default (PosixPath.splitext_ext name) = String "." e.
Proof.
  unfold PosixPath.splitext_ext.
  destruct (rpartition "." name) as [[root e]|]; [|eexists; reflexivity].
  destruct (sforall _ root); eexists; reflexivity.
Qed.

(* ===================================================================== *)
(** ** The filename sanitizer *)
(* ===================================================================== *)

(** C10. For every URL the stem computed by [url_to_filename] is made of
    characters of [[a-z0-9_]] and so holds no dot; the test on a final
    [.pdf] never finds one, and an extension is appended in every case:
    the one recorded in the basename, or [.pdf] when none is recorded.
    A basename [x.aspx] gives [x_aspx.aspx], with the extension both
    inside the stem and behind it; [x.pdf] gives [x.pdf], because the
    final [_pdf] is cut from the stem before [.pdf] is appended; a
    basename without extension gets [.pdf]. *)
Theorem url_to_filename_always_appends_ext :
  (forall name : string,
      sforall safe_char (sanitize name) = true
      /\ contains_char "." (sanitize name) = false
      /\ endswith ".pdf" (sanitize name) = false
      /\ filename_of_basename name
         = sanitize name
           +:+ match PosixPath.splitext_ext name with
               | EmptyString => ".pdf"%string
               | String c ext => String c ext
               end)
  /\ (forall raw_url : string,
        url_to_filename raw_url
        = match get_filename (lower raw_url) with
          | Ok name =>
              Ok (sanitize name
                  +:+ match PosixPath.splitext_ext name with
                      | EmptyString => ".pdf"%string
                      | String c ext => String c ext
                      end)
          | Raise e => Raise e
          end)
  /\ url_to_filename "https://churchdwight.com/disclosure/x.aspx" = Ok "x_aspx.aspx"%string
  /\ sanitize "x.aspx" = "x_aspx"%string
  /\ url_to_filename "https://churchdwight.com/disclosure/Safety-Data-Sheet"
     = Ok "safety_data_sheet.pdf"%string
  /\ url_to_filename "https://churchdwight.com/disclosure/x.PDF" = Ok "x.pdf"%string
  /\ url_to_filename "https://churchdwight.com/disclosure/.hidden" = Ok "hidden.pdf"%string
  /\ url_to_filename "https://churchdwight.com/pdf/?productID=40002569" = Ok ".pdf"%string.
Proof.
  assert (Hext : forall name,
             ext_or_default (PosixPath.splitext_ext name)
             = match PosixPath.splitext_ext name with
               | EmptyString => ".pdf"%string
               | String c ext => String c ext
               end)
    by (intros name; destruct (PosixPath.splitext_ext name); reflexivity).
  split; [|split; [|repeat split; vm_compute; reflexivity]].
  - intros name. split; [|split; [|split]].
    + apply sanitize_safe.
    + apply sforall_safe_no_dot, sanitize_safe.
    + apply sanitize_not_endswith_pdf.
    + rewrite filename_of_basename_eq, Hext. reflexivity.
  - intros raw_url. unfold url_to_filename.
    destruct (get_filename (lower raw_url)); [|reflexivity].
    rewrite filename_of_basename_eq, Hext. reflexivity.
Qed.

(** C3, as stated, fails on the links the pipeline is written for: the
    filename of a product link is [.pdf], whose stem is empty. *)
Lemma sanitized_form_fails_on_product_link :
  url_to_filename "https://churchdwight.com/pdf/?productID=40002569" = Ok ".pdf"%string
  /\ ~ sanitized_form ".pdf".
Proof.
  split; [reflexivity|].
  intros (stem & ext & Heq & Hne & Hsafe).
  destruct stem as [|a stem]; [congruence|].
  simpl in Heq. injection Heq as <- _. simpl in Hsafe. discriminate.
Qed.

(** C3, amended. Whenever [url_to_filename] returns, the filename is a
    stem of characters of [[a-z0-9_]], which may be empty, then a dot and
    an extension; the extension is [.pdf] when the basename records
    none. *)
Theorem url_to_filename_form (raw_url f : string) :
  url_to_filename raw_url = Ok f ->
  sanitized_form_opt_stem f
  /\ exists name,
      get_filename (lower raw_url) = Ok name
      /\ (PosixPath.splitext_ext name = EmptyString ->
          f = sanitize name +:+ ".pdf"%string).
Proof.
  unfold url_to_filename.
  destruct (get_filename (lower raw_url)) as [name|e]; [|discriminate].
  intros [= <-]. rewrite filename_of_basename_eq. split.
  - destruct (ext_or_default_dot name) as [e He]. rewrite He.
    exists (sanitize name), e. split; [reflexivity|apply sanitize_safe].
  - exists name. split; [reflexivity|]. intros ->. reflexivity.
Qed.

Lemma url_to_filename_form_witness :
  url_to_filename "https://churchdwight.com/disclosure/Email-Diamant-Formule-Rouge.aspx"
  = Ok "email_diamant_formule_rouge_aspx.aspx"%string
  /\ sanitized_form_opt_stem "email_diamant_formule_rouge_aspx.aspx"
  /\ exists name,
      get_filename
        (lower "https://churchdwight.com/disclosure/Email-Diamant-Formule-Rouge.aspx")
      = Ok name
      /\ (PosixPath.splitext_ext name = EmptyString ->
          "email_diamant_formule_rouge_aspx.aspx"%string = sanitize name +:+ ".pdf"%string).
Proof.
  split; [reflexivity|].
  apply (url_to_filename_form
           "https://churchdwight.com/disclosure/Email-Diamant-Formule-Rouge.aspx").
  reflexivity.
Defined.

(* ===================================================================== *)
(** ** The URL validator *)
(* ===================================================================== *)

Lemma truthy_true_iff s : truthy s = true <-> s <> EmptyString.
Proof. destruct s; simpl; split; congruence. Qed.

(** C8. [is_url_valid] is a total function into [bool]; it is [true]
    exactly when [urlparse] returns a result whose scheme and network
    location are both non-empty, and [false] when [urlparse] raises. *)
Theorem is_url_valid_characterization :
  (forall url : string,
      is_url_valid url = true
      <-> exists r, UrlLib.urlparse url = Ok r
                    /\ UrlLib.scheme r <> EmptyString
                    /\ UrlLib.netloc r <> EmptyString)
  /\ (forall (url : string) (e : exn),
        UrlLib.urlparse url = Raise e -> is_url_valid url = false)
  /\ is_url_valid "https://example.com/x" = true
  /\ is_url_valid "not a url" = false
  /\ is_url_valid "" = false
  /\ is_url_valid "http://[" = false.
Proof.
  split; [|split; [|repeat split; reflexivity]].
  - intros url. unfold is_url_valid.
    destruct (UrlLib.urlparse url) as [r|e]; split.
    + intros H. apply andb_prop in H as [Hs Hn]. exists r.
      split; [reflexivity|]. split; apply truthy_true_iff; assumption.
    + intros (r' & [= <-] & Hs & Hn).
      apply andb_true_intro. split; apply truthy_true_iff; assumption.
    + discriminate.
    + intros (r' & Hr & _). discriminate.
  - intros url e H. unfold is_url_valid. rewrite H. reflexivity.
Qed.

(* ===================================================================== *)
(** ** Lower case and parsing *)
(* ===================================================================== *)

Lemma case_free_slash : case_free "/". Proof. unfold case_free. by_ascii_cases. Qed.
Lemma case_free_question : case_free "?". Proof. unfold case_free. by_ascii_cases. Qed.
Lemma case_free_hash : case_free "#". Proof. unfold case_free. by_ascii_cases. Qed.






Lemma lower_app s t : lower (s +:+ t) = lower s +:+ lower t.
Proof.
  unfold lower. induction s as [|a s IH]; simpl; [reflexivity|].
  rewrite IH. reflexivity.
Qed.




Lemma contains_char_lower c s :
  case_free c -> contains_char c (lower s) = contains_char c s.
Proof.
  intros Hc. unfold lower_pair, lower. induction s as [|a s IH]; simpl; [reflexivity|].
  rewrite Hc, IH. reflexivity.
Qed.


Lemma rpartition_lower c s :
  case_free c -> rpartition c (lower s) = option_map lower_pair (rpartition c s).
Proof.
  intros Hc. unfold lower_pair, lower. induction s as [|a s IH]; simpl; [reflexivity|].
  rewrite Hc, IH.
  destruct (rpartition c s) as [[l r]|]; simpl; [reflexivity|].
  destruct (Ascii.eqb a c); reflexivity.
Qed.





Lemma basename_lower p : PosixPath.basename (lower p) = lower (PosixPath.basename p).
Proof.
  unfold PosixPath.basename. rewrite (rpartition_lower _ _ case_free_slash).
  destruct (rpartition "/" p) as [[l r]|]; reflexivity.
Qed.













(** *** Bracketed hosts in lower case *)


























(** The other direction fails on a bracketed host that starts with a
    capital [V]. *)
Lemma urlparse_lower_converse_fails :
  UrlLib.urlparse "http://[V1.a]/"
  = Raise (ValueError "'V1.a' does not appear to be an IPv4 or IPv6 address")
  /\ UrlLib.urlparse (lower "http://[V1.a]/")
     = Ok (UrlLib.mkParseResult "http" "[v1.a]" "/" "" "" "").
Proof. split; vm_compute; reflexivity. Qed.

(** What tells this [urlsplit] from the older ones: a leading blank is
    stripped, a scheme starts with a letter, a host in square brackets
    is an IPv6 or an IPvFuture address. *)
Lemma urlsplit_examples :
  is_url_valid " https://example.com/a/b.pdf" = true
  /\ is_url_valid "1http://a/b.c" = false
  /\ is_url_valid "http://[V1.a]/" = false
  /\ is_url_valid "http://[v1.a]/" = true
  /\ is_url_valid "http://[::1]:8080/x" = true
  /\ is_url_valid "http://[::ffff:192.0.2.1]/" = true
  /\ is_url_valid "http://[192.0.2.1]/" = false
  /\ is_url_valid "http://[::1]x/" = false.
Proof. repeat split; vm_compute; reflexivity. Qed.


(** The filename of a URL is a function of the basename of the path
    that [urlparse] finds in the URL's lower-case form, the text
    [get_filename] is given. *)
Lemma url_to_filename_of_parse url r :
  UrlLib.urlparse (lower url) = Ok r ->
  url_to_filename url
  = Ok (filename_of_basename (PosixPath.basename (UrlLib.path r))).
Proof.
  intros H. unfold url_to_filename, get_filename. rewrite H. reflexivity.
Qed.

Lemma url_to_filename_unparsable url e :
  UrlLib.urlparse (lower url) = Raise e -> url_to_filename url = Raise e.
Proof.
  intros H. unfold url_to_filename, get_filename. rewrite H. reflexivity.
Qed.

Lemma url_to_filename_raises_iff url :
  (exists e, url_to_filename url = Raise e)
  <-> (exists e, UrlLib.urlparse (lower url) = Raise e).
Proof.
  unfold url_to_filename, get_filename.
  destruct (UrlLib.urlparse (lower url)) as [r|e]; simpl; split; intros [e' H];
    try discriminate; eauto.
Qed.

(* ===================================================================== *)
(** ** The path of a URL that ends in a directory *)
(* ===================================================================== *)

Lemma sapp_cons a s t : String a s +:+ t = String a (s +:+ t).
Proof. reflexivity. Qed.

Lemma sapp_nil t : EmptyString +:+ t = t.
Proof. reflexivity. Qed.

Ltac ssimpl := rewrite ?sapp_nil, ?sapp_cons; simpl.

Lemma sapp_assoc s t u : (s +:+ t) +:+ u = s +:+ (t +:+ u).
Proof.
  induction s as [|a s IH]; [reflexivity|].
  rewrite !sapp_cons, IH. reflexivity.
Qed.

Lemma sapp_empty_r s : s +:+ EmptyString = s.
Proof.
  induction s as [|a s IH]; [reflexivity|].
  rewrite sapp_cons, IH. reflexivity.
Qed.

Lemma last_char_app l t :
  last_char (l +:+ t)
  = match last_char t with Some c => Some c | None => last_char l end.
Proof.
  induction l as [|a l IH]; ssimpl.
  - destruct (last_char t); reflexivity.
  - rewrite IH. destruct (last_char t); reflexivity.
Qed.

Lemma ends_in_dir_suffix l t : ends_in_dir (l +:+ t) = true -> ends_in_dir t = true.
Proof.
  unfold ends_in_dir. rewrite last_char_app.
  destruct (last_char t); [trivial|reflexivity].
Qed.

Lemma contains_char_app c s t :
  contains_char c (s +:+ t) = contains_char c s || contains_char c t.
Proof.
  induction s as [|a s IH]; ssimpl; [reflexivity|].
  rewrite IH. apply orb_assoc.
Qed.

Lemma sfilter_app p s t : sfilter p (s +:+ t) = sfilter p s +:+ sfilter p t.
Proof.
  induction s as [|a s IH]; ssimpl; [reflexivity|].
  rewrite IH. destruct (p a); reflexivity.
Qed.

Lemma contains_char_sfilter c p s :
  contains_char c s = false -> contains_char c (sfilter p s) = false.
Proof.
  induction s as [|a s IH]; simpl; [reflexivity|].
  intros H. apply orb_false_elim in H as [Ha Hs].
  destruct (p a); simpl; [rewrite Ha|]; auto.
Qed.

Lemma rpartition_none_last c s :
  rpartition c s = None -> last_char s <> Some c.
Proof.
  induction s as [|a s IH]; simpl; [discriminate|].
  destruct (rpartition c s) as [[l r]|]; [discriminate|].
  destruct (Ascii.eqb a c) eqn:E; [discriminate|]. intros _.
  specialize (IH eq_refl). destruct (last_char s); [exact IH|].
  intros [= ->]. rewrite Ascii.eqb_refl in E. discriminate.
Qed.

Lemma rpartition_some_last c s l r :
  rpartition c s = Some (l, r) -> last_char s = Some c -> r = EmptyString.
Proof.
  revert l r. induction s as [|a s IH]; simpl; [discriminate|]. intros l r.
  destruct (rpartition c s) as [[l' r']|] eqn:E.
  - intros [= <- <-] Hl. apply (IH l' r'); [reflexivity|].
    destruct (last_char s) eqn:El; [exact Hl|].
    destruct s; simpl in *; [discriminate|].
    destruct (last_char s); discriminate.
  - destruct (Ascii.eqb a c); [|discriminate]. intros [= <- <-] Hl.
    destruct s as [|b s]; [reflexivity|]. exfalso.
    apply (rpartition_none_last _ _ E).
    destruct (last_char (String b s)) eqn:El; [exact Hl|].
    simpl in El. destruct (last_char s); discriminate.
Qed.

Lemma ends_in_dir_cases s :
  ends_in_dir s = true -> s = EmptyString \/ last_char s = Some "/".
Proof.
  unfold ends_in_dir. destruct (last_char s) as [c|] eqn:E.
  - intros H. apply Ascii.eqb_eq in H. subst. auto.
  - destruct s; simpl in *; [auto|]. destruct (last_char s); discriminate.
Qed.

(** A path that ends in a directory has an empty basename. *)
Lemma basename_of_dir s : ends_in_dir s = true -> PosixPath.basename s = EmptyString.
Proof.
  intros H. apply ends_in_dir_cases in H as [->|H]; [reflexivity|].
  unfold PosixPath.basename. destruct (rpartition "/" s) as [[l r]|] eqn:E.
  - apply (rpartition_some_last _ _ _ _ E H).
  - destruct (rpartition_none_last _ _ E H).
Qed.

Lemma break_app_clean p l t :
  sforall (fun c => negb (p c)) l = true ->
  break p (l +:+ t) = (l +:+ (break p t).1, (break p t).2).
Proof.
  induction l as [|a l IH]; ssimpl.
  - destruct (break p t); reflexivity.
  - intros H. apply andb_prop in H as [Ha Hl].
    apply negb_true_iff in Ha. rewrite Ha, (IH Hl). reflexivity.
Qed.

Lemma before_query_app l t :
  sforall (fun c => negb (query_or_fragment_mark c)) l = true ->
  before_query (l +:+ t) = l +:+ before_query t.
Proof. intros H. unfold before_query. rewrite (break_app_clean _ _ _ H). reflexivity. Qed.

Lemma sforall_impl (p q : ascii -> bool) s :
  (forall c, p c = true -> q c = true) -> sforall p s = true -> sforall q s = true.
Proof.
  intros Hpq. induction s as [|a s IH]; simpl; [reflexivity|].
  intros H. apply andb_prop in H as [Ha Hs]. rewrite (Hpq _ Ha). simpl. auto.
Qed.

Lemma partition_split c s l r : partition c s = Some (l, r) -> s = l +:+ String c r.
Proof.
  revert l. induction s as [|a s IH]; simpl; [discriminate|]. intros l.
  destruct (Ascii.eqb a c) eqn:E.
  - apply Ascii.eqb_eq in E. subst. intros [= <- <-]. reflexivity.
  - destruct (partition c s) as [[l' r']|]; [|discriminate].
    intros [= <- <-]. rewrite sapp_cons, <- (IH l' eq_refl). reflexivity.
Qed.

Lemma break_split p s : s = (break p s).1 +:+ (break p s).2.
Proof.
  induction s as [|a s IH]; simpl; [reflexivity|].
  destruct (p a); [reflexivity|].
  destruct (break p s) as [l r]. simpl in *. rewrite sapp_cons, <- IH. reflexivity.
Qed.

Lemma break_prefix_clean p s : sforall (fun c => negb (p c)) (break p s).1 = true.
Proof.
  induction s as [|a s IH]; simpl; [reflexivity|].
  destruct (p a) eqn:E; [reflexivity|].
  destruct (break p s) as [l r]. simpl in *. rewrite E, IH. reflexivity.
Qed.

Lemma strip_prefix_split pre s r : strip_prefix pre s = Some r -> s = pre +:+ r.
Proof.
  revert s. induction pre as [|a pre IH]; intros [|b s]; simpl; try discriminate.
  - intros [= <-]. reflexivity.
  - intros [= <-]. reflexivity.
  - destruct (Ascii.eqb a b) eqn:E; [|discriminate].
    apply Ascii.eqb_eq in E. subst. intros H. rewrite sapp_cons, <- (IH _ H). reflexivity.
Qed.

Lemma dir_before_query_suffix l t :
  sforall (fun c => negb (query_or_fragment_mark c)) l = true ->
  dir_before_query (l +:+ t) -> dir_before_query t.
Proof.
  unfold dir_before_query. intros Hl. rewrite (before_query_app _ _ Hl).
  apply ends_in_dir_suffix.
Qed.

Lemma split_scheme_dir url :
  dir_before_query url -> dir_before_query (UrlLib.split_scheme url).2.
Proof.
  intros H. unfold UrlLib.split_scheme.
  destruct (partition ":" url) as [[pre post]|] eqn:E; [|exact H].
  destruct (truthy pre && _ && sforall UrlLib.scheme_char pre) eqn:Ec; [|exact H].
  apply andb_prop in Ec as [_ Hpre]. simpl.
  apply partition_split in E. subst url.
  change (pre +:+ String ":" post) with (pre +:+ (String ":" EmptyString +:+ post)) in H.
  rewrite <- sapp_assoc in H. revert H. apply dir_before_query_suffix.
  rewrite sforall_app. apply andb_true_intro. split; [|reflexivity].
  revert Hpre. apply sforall_impl. by_ascii_cases.
Qed.

Lemma split_netloc_dir url nl url' :
  UrlLib.split_netloc url = Ok (nl, url') ->
  dir_before_query url -> dir_before_query url'.
Proof.
  unfold UrlLib.split_netloc.
  destruct (strip_prefix "//" url) as [rest|] eqn:E.
  - pose proof (break_split UrlLib.netloc_delim rest) as Hs.
    pose proof (break_prefix_clean UrlLib.netloc_delim rest) as Hc.
    destruct (break UrlLib.netloc_delim rest) as [nl0 u0]. simpl in Hs, Hc.
    destruct (_ || _); [discriminate|].
    assert (Hret : Ok (nl0, u0) = Ok (nl, url') ->
                   dir_before_query url -> dir_before_query url').
    { intros [= <- <-].
      apply strip_prefix_split in E. subst url rest.
      rewrite <- sapp_assoc. apply dir_before_query_suffix.
      rewrite sforall_app. apply andb_true_intro. split; [reflexivity|].
      revert Hc. apply sforall_impl. by_ascii_cases. }
    destruct (_ && _); [|exact Hret].
    destruct (UrlLib.check_bracketed_netloc nl0); [exact Hret|discriminate].
  - intros [= <- <-]. trivial.
Qed.

Lemma c0_not_query_mark :
  forall c, UrlLib.c0_control_or_space c = true -> query_or_fragment_mark c = false.
Proof. by_ascii_cases. Qed.

(** Stripping the leading controls and spaces leaves what ends the text
    in front of the query as it is. *)
Lemma lstrip_class_dir url :
  dir_before_query (sfilter (fun c => negb (UrlLib.unsafe_byte c)) url) ->
  dir_before_query
    (sfilter (fun c => negb (UrlLib.unsafe_byte c))
       (lstrip_class UrlLib.c0_control_or_space url)).
Proof.
  induction url as [|a url IH]; [trivial|]. cbn [lstrip_class].
  destruct (UrlLib.c0_control_or_space a) eqn:Ea; [|trivial].
  intros H. apply IH. cbn [sfilter] in H.
  destruct (negb (UrlLib.unsafe_byte a)); [|exact H].
  change (String a ?t) with (String a EmptyString +:+ t) in H.
  revert H. apply dir_before_query_suffix. simpl.
  rewrite (c0_not_query_mark _ Ea). reflexivity.
Qed.


Lemma split_query_fragment url :
  (UrlLib.split_off "?" (UrlLib.split_off "#" url).1).1 = before_query url.
Proof.
  unfold before_query, UrlLib.split_off.
  induction url as [|a url IH]; [reflexivity|].
  cbn [partition break]. unfold query_or_fragment_mark at 1.
  destruct (Ascii.eqb a "#") eqn:Eh.
  - rewrite orb_true_r. reflexivity.
  - rewrite orb_false_r.
    destruct (partition "#" url) as [[l r]|]; cbn [fst] in *; cbn [partition];
      destruct (Ascii.eqb a "?"); try reflexivity.
    + destruct (partition "?" l) as [[l2 r2]|]; cbn [fst] in *;
        destruct (break query_or_fragment_mark url); cbn [fst] in *; subst; reflexivity.
    + destruct (partition "?" url) as [[l2 r2]|]; cbn [fst] in *;
        destruct (break query_or_fragment_mark url); cbn [fst] in *; subst; reflexivity.
Qed.

Lemma urlsplit_dir_path url r :
  dir_before_query (sfilter (fun c => negb (UrlLib.unsafe_byte c)) url) ->
  UrlLib.urlsplit url = Ok r -> ends_in_dir (UrlLib.path r) = true.
Proof.
  intros H. unfold UrlLib.urlsplit.
  apply lstrip_class_dir, split_scheme_dir in H.
  destruct (UrlLib.split_scheme _) as [sch url2]. simpl in H.
  destruct (UrlLib.split_netloc url2) as [[nl url3]|e] eqn:En; [|discriminate].
  apply (split_netloc_dir _ _ _ En) in H.
  pose proof (split_query_fragment url3) as Hq.
  destruct (UrlLib.split_off "#" url3) as [url4 frag]. simpl in Hq.
  destruct (UrlLib.split_off "?" url4) as [url5 qry]. simpl in Hq.
  intros [= <-]. simpl. rewrite Hq. exact H.
Qed.

Lemma splitparams_dir p : ends_in_dir p = true -> UrlLib.splitparams p = (p, EmptyString).
Proof.
  intros H. unfold UrlLib.splitparams.
  destruct (rpartition "/" p) as [[head tail]|] eqn:E.
  - apply ends_in_dir_cases in H as [->|H]; [discriminate|].
    rewrite (rpartition_some_last _ _ _ _ E H). reflexivity.
  - apply ends_in_dir_cases in H as [->|H]; [reflexivity|].
    destruct (rpartition_none_last _ _ E H).
Qed.

Lemma urlparse_dir_path url r :
  dir_before_query (sfilter (fun c => negb (UrlLib.unsafe_byte c)) url) ->
  UrlLib.urlparse url = Ok r -> PosixPath.basename (UrlLib.path r) = EmptyString.
Proof.
  intros H. unfold UrlLib.urlparse.
  destruct (UrlLib.urlsplit url) as [r0|e] eqn:E; [|discriminate].
  pose proof (urlsplit_dir_path _ _ H E) as Hd.
  destruct (_ && _).
  - rewrite (splitparams_dir _ Hd). intros [= <-]. simpl. apply basename_of_dir, Hd.
  - intros [= <-]. apply basename_of_dir, Hd.
Qed.

(** A URL whose path ends in a slash right in front of the query. *)
Lemma dir_before_query_intro prefix qry :
  contains_char "?" prefix = false ->
  contains_char "#" prefix = false ->
  ends_in_dir prefix = true ->
  dir_before_query
    (sfilter (fun c => negb (UrlLib.unsafe_byte c)) (prefix +:+ String "?" qry)).
Proof.
  intros Hq Hh Hd. unfold dir_before_query.
  rewrite sfilter_app. simpl sfilter at 2.
  set (keep := fun c => negb (UrlLib.unsafe_byte c)).
  assert (Hclean : sforall (fun c => negb (query_or_fragment_mark c)) (sfilter keep prefix) = true).
  { clear Hd. induction prefix as [|a s IH]; simpl in *; [reflexivity|].
    apply orb_false_elim in Hq as [Ha Hq]. apply orb_false_elim in Hh as [Hb Hh].
    destruct (keep a); simpl; [|auto].
    unfold query_or_fragment_mark at 1. rewrite Ha, Hb. simpl. auto. }
  rewrite (before_query_app _ _ Hclean). unfold before_query. simpl.
  rewrite sapp_empty_r.
  apply ends_in_dir_cases in Hd as [->|Hd]; [reflexivity|].
  clear Hq Hh Hclean. unfold ends_in_dir.
  assert (Hl : last_char (sfilter keep prefix) = Some "/"%char).
  { induction prefix as [|a s IH]; simpl in *; [discriminate|].
    destruct (last_char s) as [c|] eqn:El.
    - specialize (IH Hd). destruct (keep a); simpl; rewrite IH; reflexivity.
    - injection Hd as ->. destruct s; [reflexivity|].
      simpl in El. destruct (last_char s); discriminate. }
  rewrite Hl. reflexivity.
Qed.

Lemma url_to_filename_ok_parses url f :
  url_to_filename url = Ok f -> exists r, UrlLib.urlparse (lower url) = Ok r.
Proof.
  unfold url_to_filename, get_filename.
  destruct (UrlLib.urlparse (lower url)) as [r|e]; [eauto|discriminate].
Qed.

(** A product link in lower case is a product link still: lower-casing
    changes the letters of [productID] and nothing before the query
    that counts. *)
Lemma lower_product_link_dir prefix digits :
  contains_char "?" prefix = false ->
  contains_char "#" prefix = false ->
  dir_before_query
    (sfilter (fun c => negb (UrlLib.unsafe_byte c)) (lower (product_link prefix digits))).
Proof.
  intros Hq Hh. unfold product_link. rewrite !lower_app.
  change (lower "/pdf/?productID=" +:+ lower digits)
    with ("/pdf/" +:+ String "?" ("productid=" +:+ lower digits)).
  rewrite <- sapp_assoc. apply dir_before_query_intro.
  - rewrite contains_char_app, (contains_char_lower _ _ case_free_question), Hq.
    reflexivity.
  - rewrite contains_char_app, (contains_char_lower _ _ case_free_hash), Hh.
    reflexivity.
  - unfold ends_in_dir. rewrite last_char_app. reflexivity.
Qed.

Lemma product_link_filename prefix digits f :
  contains_char "?" prefix = false ->
  contains_char "#" prefix = false ->
  url_to_filename (product_link prefix digits) = Ok f ->
  f = ".pdf"%string.
Proof.
  intros Hq Hh Hf. destruct (url_to_filename_ok_parses _ _ Hf) as [r Hr].
  rewrite (url_to_filename_of_parse _ _ Hr) in Hf.
  rewrite (urlparse_dir_path _ _ (lower_product_link_dir _ _ Hq Hh) Hr) in Hf.
  injection Hf as <-. reflexivity.
Qed.

(** C7, as stated, fails: [urlparse] raises on an unclosed bracket in
    the network location, and [url_to_filename] lets that through. *)
Lemma url_to_filename_raises_on_open_bracket :
  url_to_filename "http://[" = Raise (ValueError "Invalid IPv6 URL").
Proof. reflexivity. Qed.

(** C7, amended. [url_to_filename] hands the URL in lower case to
    [urlparse]. When [urlparse] raises on that text, [url_to_filename]
    raises the same exception; when it returns, [url_to_filename]
    returns a string. The string is [.pdf] when the path found is
    empty, and also for a link [prefix/pdf/?productID=digits] whose
    prefix holds no [?] and no [#]. *)
Theorem url_to_filename_returns (url : string) :
  (forall e, UrlLib.urlparse (lower url) = Raise e -> url_to_filename url = Raise e)
  /\ (forall r, UrlLib.urlparse (lower url) = Ok r ->
        exists f : string,
          url_to_filename url = Ok f
          /\ (UrlLib.path r = EmptyString -> f = ".pdf"%string)
          /\ (forall prefix digits : string,
                contains_char "?" prefix = false ->
                contains_char "#" prefix = false ->
                url = product_link prefix digits ->
                f = ".pdf"%string /\ endswith ".pdf" f = true)).
Proof.
  split; [intros e He; apply (url_to_filename_unparsable _ _ He)|].
  intros r Hr. eexists. split; [apply (url_to_filename_of_parse _ _ Hr)|]. split.
  - intros ->. reflexivity.
  - intros prefix digits Hq Hh ->.
    rewrite (urlparse_dir_path _ _ (lower_product_link_dir _ _ Hq Hh) Hr).
    split; reflexivity.
Qed.

Lemma url_to_filename_returns_witness :
  UrlLib.urlparse (lower "https://ChurchDwight.com/pdf/?productID=40002569")
  = Ok (UrlLib.mkParseResult "https" "churchdwight.com" "/pdf/" "" "productid=40002569" "")
  /\ url_to_filename "https://ChurchDwight.com/pdf/?productID=40002569" = Ok ".pdf"%string
  /\ UrlLib.urlparse (lower "HTTPS://ChurchDwight.com")
     = Ok (UrlLib.mkParseResult "https" "churchdwight.com" "" "" "" "")
  /\ url_to_filename "HTTPS://ChurchDwight.com" = Ok ".pdf"%string.
Proof.
  assert (H1 : UrlLib.urlparse (lower "https://ChurchDwight.com/pdf/?productID=40002569")
               = Ok (UrlLib.mkParseResult "https" "churchdwight.com" "/pdf/" ""
                       "productid=40002569" ""))
    by (vm_compute; reflexivity).
  assert (H2 : UrlLib.urlparse (lower "HTTPS://ChurchDwight.com")
               = Ok (UrlLib.mkParseResult "https" "churchdwight.com" "" "" "" ""))
    by (vm_compute; reflexivity).
  split; [exact H1|]. split; [|split; [exact H2|]].
  - destruct (proj2 (url_to_filename_returns
                       "https://ChurchDwight.com/pdf/?productID=40002569") _ H1)
      as (f & Hf & _ & Hp).
    destruct (Hp "https://ChurchDwight.com"%string "40002569"%string eq_refl eq_refl eq_refl)
      as [-> _].
    exact Hf.
  - destruct (proj2 (url_to_filename_returns "HTTPS://ChurchDwight.com") _ H2)
      as (f & Hf & He & _).
    rewrite (He eq_refl) in Hf. exact Hf.
Defined.

(* ===================================================================== *)
(** ** The downloader *)
(* ===================================================================== *)

Lemma opened_count_app tr1 tr2 :
  opened_count (tr1 ++ tr2) = opened_count tr1 + opened_count tr2.
Proof.
  induction tr1 as [|ev tr1 IH]; simpl; [reflexivity|].
  destruct ev; simpl; rewrite IH; reflexivity.
Qed.

Lemma requested_app tr1 tr2 : requested (tr1 ++ tr2) = requested tr1 ++ requested tr2.
Proof.
  induction tr1 as [|ev tr1 IH]; simpl; [reflexivity|].
  destruct ev; simpl; rewrite IH; reflexivity.
Qed.

Lemma for_each_append_file p chunks w :
  for_each chunks (append_file p) w
  = (Ok tt, mkWorld (dirs w) (append_chunks p chunks (files w))
              (sessions w) (clock w) (trace w)).
Proof.
  revert w. induction chunks as [|c chunks IH]; intros [d f s c0 t]; simpl.
  - reflexivity.
  - unfold bind at 1. simpl. rewrite IH. reflexivity.
Qed.

Lemma append_chunks_keeps p chunks fs :
  is_Some (fs !! p) -> is_Some (append_chunks p chunks fs !! p).
Proof.
  revert fs. induction chunks as [|c chunks IH]; intros fs H; simpl; [exact H|].
  apply IH. rewrite lookup_insert_eq. eauto.
Qed.

Lemma download_pdf_skip env url dir w name :
  url_to_filename url = Ok name ->
  is_Some (files w !! (dir, name)) ->
  download_pdf env url dir w = (Ok false, skipped (dir, name) w).
Proof.
  intros Hn Hf. unfold download_pdf, bind, lift, file_exists. rewrite Hn.
  rewrite bool_decide_eq_true_2 by exact Hf. reflexivity.
Qed.

Lemma download_pdf_fresh env url dir w name :
  url_to_filename url = Ok name ->
  files w !! (dir, name) = None ->
  download_pdf env url dir w = download_fresh env url (dir, name) w.
Proof.
  intros Hn Hf. destruct w as [d f s c t]. simpl in Hf.
  unfold download_pdf, download_fresh, bind at 1, lift. rewrite Hn.
  unfold bind at 1, file_exists. simpl.
  rewrite bool_decide_eq_false_2 by (simpl; rewrite Hf; intros [? ?]; discriminate).
  unfold try_except, requests_get, bind, emit, ask, raise_for_status. simpl.
  destruct (env_requests_get env c url) as [resp|e]; simpl; [|reflexivity].
  destruct (is_error_status (status_code resp)); simpl; [reflexivity|].
  destruct (acceptable_content_type (content_type_of resp)); simpl; [|reflexivity].
  unfold write_body, bind. simpl.
  destruct (bool_decide (dir ∈ d)); simpl; [|reflexivity].
  unfold ask. simpl.
  destruct (env_open_wb env (S c) (dir, name)); simpl; [|reflexivity].
  rewrite for_each_append_file. simpl.
  rewrite <- app_assoc. simpl.
  destruct (body_breaks resp); reflexivity.
Qed.

Lemma download_fresh_cases env url p w :
  (files (download_fresh env url p w).2 = files w
   /\ opened_count (trace (download_fresh env url p w).2) = opened_count (trace w)
   /\ (download_fresh env url p w).1 = Ok false)
  \/ (is_Some (files (download_fresh env url p w).2 !! p)
      /\ opened_count (trace (download_fresh env url p w).2) = S (opened_count (trace w))).
Proof.
  unfold download_fresh.
  destruct (env_requests_get env (clock w) url) as [resp|e];
    [|left; simpl; rewrite !opened_count_app; simpl; auto with lia].
  destruct (is_error_status _);
    [left; simpl; rewrite !opened_count_app; simpl; auto with lia|].
  destruct (negb _);
    [left; simpl; rewrite !opened_count_app; simpl; auto with lia|].
  destruct (bool_decide _);
    [|left; simpl; rewrite !opened_count_app; simpl; auto with lia].
  destruct (env_open_wb _ _ _);
    [|left; simpl; rewrite !opened_count_app; simpl; auto with lia].
  right. destruct (body_breaks resp); simpl; rewrite !opened_count_app; simpl;
    (split; [apply append_chunks_keeps; rewrite lookup_insert_eq; eauto|lia]).
Qed.


(** C1, as stated, fails in its last part: a second run reports a skip
    only if the first one left the file in place. After a first run whose
    request was answered with 503 the second run requests again, writes
    the file and reports the download. *)
Lemma download_pdf_second_run_downloads :
  let first := download_pdf example_env_flaky example_link "PDFs" world_with_dir in
  let second := download_pdf example_env_flaky example_link "PDFs" first.2 in
  first = (Ok false,
           mkWorld {[ "PDFs"%string ]} ∅ 0 1
             [HttpGet example_link 900 true;
              Printed (MsgFailedToDownload example_link (HTTPError 503))])
  /\ second.1 = Ok true
  /\ trace second.2
     = trace first.2
       ++ [HttpGet example_link 900 true;
           FileOpened ("PDFs"%string, ".pdf"%string);
           Printed (MsgDownloaded example_link ("PDFs"%string, ".pdf"%string))]
  /\ ~ In (Printed (MsgFileExistsSkipping ("PDFs"%string, ".pdf"%string))) (trace second.2).
Proof.
  repeat split; try reflexivity.
  vm_compute. intros H. repeat (destruct H as [H|H]; [discriminate|]). exact H.
Qed.

(** C1, amended. When the file named after the URL is in the output
    directory, [download_pdf] returns [False], prints the skip and does
    nothing else: no request, no write. Hence in two runs in a row the
    file is opened for writing at most once, and the second run is such
    a skip whenever the first one left the file in place, which it does
    when it returns [True] and whenever it opened the file. *)
Theorem download_pdf_at_most_once (env : Env) (url dir : string) (w : World)
    (name : string) :
  url_to_filename url = Ok name ->
  let p := (dir, name) in
  let first := download_pdf env url dir w in
  let second := download_pdf env url dir first.2 in
  (is_Some (files w !! p) ->
     first = (Ok false, skipped p w)
     /\ files first.2 = files w
     /\ clock first.2 = clock w
     /\ requested (trace first.2) = requested (trace w)
     /\ opened_count (trace first.2) = opened_count (trace w))
  /\ (is_Some (files first.2 !! p) ->
        second = (Ok false, skipped p first.2)
        /\ files second.2 = files first.2
        /\ clock second.2 = clock first.2
        /\ requested (trace second.2) = requested (trace first.2))
  /\ (first.1 = Ok true -> is_Some (files first.2 !! p))
  /\ (opened_count (trace first.2) = S (opened_count (trace w)) ->
        is_Some (files first.2 !! p))
  /\ opened_count (trace second.2) <= S (opened_count (trace w)).
Proof.
  intros Hn p first second.
  assert (Hskip : forall w0, is_Some (files w0 !! p) ->
            download_pdf env url dir w0 = (Ok false, skipped p w0)
            /\ files (download_pdf env url dir w0).2 = files w0
            /\ clock (download_pdf env url dir w0).2 = clock w0
            /\ requested (trace (download_pdf env url dir w0).2) = requested (trace w0)
            /\ opened_count (trace (download_pdf env url dir w0).2)
               = opened_count (trace w0)).
  { intros w0 H0. rewrite (download_pdf_skip env url dir w0 name Hn H0). simpl.
    rewrite requested_app, opened_count_app. simpl.
    rewrite app_nil_r, Nat.add_0_r. auto. }
  assert (Hfresh : forall w0, files w0 !! p = None ->
            download_pdf env url dir w0 = download_fresh env url p w0).
  { intros w0 H0. apply (download_pdf_fresh env url dir w0 name Hn H0). }
  assert (Hstep : forall w0,
            (opened_count (trace (download_pdf env url dir w0).2) = opened_count (trace w0)
             /\ ((download_pdf env url dir w0).1 = Ok true ->
                 is_Some (files (download_pdf env url dir w0).2 !! p)))
            \/ (is_Some (files (download_pdf env url dir w0).2 !! p)
                /\ opened_count (trace (download_pdf env url dir w0).2)
                   = S (opened_count (trace w0)))).
  { intros w0. destruct (files w0 !! p) as [bytes|] eqn:E.
    - left. assert (H0 : is_Some (files w0 !! p)) by (rewrite E; eauto).
      destruct (Hskip w0 H0) as (Heq & _ & _ & _ & Hc). split; [exact Hc|].
      rewrite Heq. discriminate.
    - rewrite (Hfresh w0 E).
      destruct (download_fresh_cases env url p w0) as [(_ & Hc & Hr)|[Hf Hc]].
      + left. split; [exact Hc|]. rewrite Hr. discriminate.
      + right. auto. }
  split; [intros H; apply (Hskip w H)|].
  split; [intros H; destruct (Hskip first.2 H) as (? & ? & ? & ? & _); auto|].
  split; [|split].
  - destruct (Hstep w) as [[_ H]|[H _]]; auto.
  - destruct (Hstep w) as [[H _]|[H _]]; [fold first in H; lia|auto].
  - destruct (Hstep w) as [[Hc _]|[Hf Hc]]; fold first in Hc.
    + destruct (Hstep first.2) as [[Hc2 _]|[_ Hc2]]; fold second in Hc2; lia.
    + fold first in Hf. destruct (Hskip first.2 Hf) as (_ & _ & _ & _ & Hc2).
      fold second in Hc2. lia.
Qed.



(* ===================================================================== *)
(** ** The redirect resolver *)
(* ===================================================================== *)

Lemma get_final_url_started env url w :
  env_chrome env (clock w) = Ok tt ->
  env_set_page_load_timeout env (S (clock w)) = Ok tt ->
  get_final_url env url w = resolved env url w.
Proof.
  intros Hc Ht. destruct w as [d f s c t]. simpl in *.
  unfold get_final_url, resolved, webdriver_Chrome, driver_set_page_load_timeout,
    bind, ask. simpl. rewrite Hc. simpl. rewrite Ht. simpl.
  unfold try_finally, try_except, driver_get, driver_current_url, time_sleep,
    bind, ask, emit. simpl.
  destruct (env_driver_get env (S (S c)) url) as [[]|e]; simpl.
  - destruct (env_current_url env (S (S (S c))) url) as [u|e]; simpl;
      rewrite <- !app_assoc; reflexivity.
  - rewrite <- !app_assoc. reflexivity.
Qed.

(** The browser is left running only when [set_page_load_timeout], which
    [get_final_url] calls before its [try], raises. *)
Lemma get_final_url_sessions env url w :
  sessions (get_final_url env url w).2 = sessions w
  \/ exists e, env_chrome env (clock w) = Ok tt
               /\ env_set_page_load_timeout env (S (clock w)) = Raise e
               /\ (get_final_url env url w).1 = Raise e.
Proof.
  destruct (env_chrome env (clock w)) as [[]|e] eqn:Hc.
  - destruct (env_set_page_load_timeout env (S (clock w))) as [[]|e] eqn:Ht.
    + left. rewrite (get_final_url_started _ _ _ Hc Ht). unfold resolved.
      destruct (env_driver_get _ _ _); [destruct (env_current_url _ _ _)|]; reflexivity.
    + right. exists e. split; [reflexivity|]. split; [reflexivity|].
      unfold get_final_url, webdriver_Chrome, driver_set_page_load_timeout, bind, ask.
      simpl. rewrite Hc. simpl. rewrite Ht. reflexivity.
  - left. unfold get_final_url, webdriver_Chrome, bind, ask. rewrite Hc. reflexivity.
Qed.

(** Inside the [try]. Once [webdriver.Chrome] and
    [set_page_load_timeout] have returned, [get_final_url] returns on
    every path and quits the session on every path: the count of open
    sessions is what it was, and the trace of the call starts with the
    start of the browser and ends with its quit. When the navigation
    raises, a time-out included, or when reading the address raises, the
    result is the empty string; otherwise it is the address read. *)
Theorem get_final_url_teardown (env : Env) (input_url : string) (w : World) :
  env_chrome env (clock w) = Ok tt ->
  env_set_page_load_timeout env (S (clock w)) = Ok tt ->
  let out := get_final_url env input_url w in
  let nav := env_driver_get env (S (S (clock w))) input_url in
  let addr := env_current_url env (S (S (S (clock w)))) input_url in
  (exists final_url, out.1 = Ok final_url)
  /\ sessions out.2 = sessions w
  /\ (exists mid, trace out.2 = trace w ++ BrowserStarted :: mid ++ [BrowserQuit])
  /\ (forall e, nav = Raise e ->
        out.1 = Ok EmptyString
        /\ In (Printed (MsgSeleniumError input_url e)) (trace out.2))
  /\ (forall e, nav = Ok tt -> addr = Raise e ->
        out.1 = Ok EmptyString
        /\ In (Printed (MsgSeleniumError input_url e)) (trace out.2))
  /\ (forall final_url, nav = Ok tt -> addr = Ok final_url -> out.1 = Ok final_url).
Proof.
  intros Hc Ht out nav addr. subst out.
  rewrite (get_final_url_started _ _ _ Hc Ht). unfold resolved.
  fold nav. fold addr.
  destruct nav as [[]|e1]; [destruct addr as [u|e2]|]; simpl.
  - split; [eauto|]. split; [reflexivity|].
    split; [exists [BrowserNavigated input_url; Slept 2]; reflexivity|].
    repeat split; try discriminate. intros ? _ [= <-]. reflexivity.
  - split; [eauto|]. split; [reflexivity|].
    split; [exists [BrowserNavigated input_url; Slept 2;
                    Printed (MsgSeleniumError input_url e2)]; reflexivity|].
    repeat split; try discriminate; intros.
    + apply in_or_app. right. simpl. match goal with H : Raise _ = Raise _ |- _ =>
        injection H as <- end. auto.
  - split; [eauto|]. split; [reflexivity|].
    split; [exists [BrowserNavigated input_url;
                    Printed (MsgSeleniumError input_url e1)]; reflexivity|].
    repeat split; try discriminate; intros.
    + apply in_or_app. right. simpl. match goal with H : Raise _ = Raise _ |- _ =>
        injection H as <- end. auto.
Qed.

(** C5. One exit path of [get_final_url] leaves the session open.
    [driver.set_page_load_timeout(60)] stands between the start of the
    browser and the [try] whose [finally] quits it; when it raises, here
    with [WebDriverException], the exception leaves [get_final_url] and
    [driver.quit()] is not reached: one session more is open than
    before, and the trace holds the start of the browser and no quit.
    On the paths through the [try] the session is quit
    ([get_final_url_teardown]). *)
Theorem get_final_url_leaks_session :
  env_chrome example_env_stalled (clock empty_world) = Ok tt
  /\ env_set_page_load_timeout example_env_stalled (S (clock empty_world))
     = Raise WebDriverException
  /\ get_final_url example_env_stalled example_link empty_world
     = (Raise WebDriverException, mkWorld ∅ ∅ 1 2 [BrowserStarted])
  /\ sessions (get_final_url example_env_stalled example_link empty_world).2
     = S (sessions empty_world)
  /\ ~ In BrowserQuit (trace (get_final_url example_env_stalled example_link empty_world).2).
Proof.
  split; [reflexivity|]. split; [reflexivity|]. split; [reflexivity|].
  split; [reflexivity|]. simpl. intros [H|[]]. discriminate.
Qed.

(* ===================================================================== *)
(** ** The orchestrator *)
(* ===================================================================== *)

Lemma navigated_app tr1 tr2 : navigated (tr1 ++ tr2) = navigated tr1 ++ navigated tr2.
Proof.
  induction tr1 as [|ev tr1 IH]; simpl; [reflexivity|].
  destruct ev; simpl; rewrite IH; reflexivity.
Qed.

Lemma scraped_app tr1 tr2 : scraped (tr1 ++ tr2) = scraped tr1 ++ scraped tr2.
Proof.
  induction tr1 as [|ev tr1 IH]; simpl; [reflexivity|].
  destruct ev as [m| | | | | |]; simpl; try (rewrite IH; reflexivity).
  destruct m; simpl; rewrite IH; reflexivity.
Qed.

Ltac frame :=
  simpl; rewrite ?navigated_app, ?scraped_app; simpl; rewrite ?app_nil_r; auto.






Lemma download_fresh_returns env url p w :
  exists b w', download_fresh env url p w = (Ok b, w')
               /\ sessions w' = sessions w
               /\ navigated (trace w') = navigated (trace w)
               /\ scraped (trace w') = scraped (trace w).
Proof.
  unfold download_fresh.
  destruct (env_requests_get env (clock w) url) as [resp|e];
    [|eexists _, _; split; [reflexivity|frame]].
  destruct (is_error_status _); [eexists _, _; split; [reflexivity|frame]|].
  destruct (negb _); [eexists _, _; split; [reflexivity|frame]|].
  destruct (bool_decide _); [|eexists _, _; split; [reflexivity|frame]].
  destruct (env_open_wb _ _ _); [|eexists _, _; split; [reflexivity|frame]].
  destruct (body_breaks resp); eexists _, _; (split; [reflexivity|frame]).
Qed.





Lemma extract_pdf_urls_returns html w :
  exists w', extract_pdf_urls html w = (Ok (Re.findall html), w')
             /\ sessions w' = sessions w
             /\ navigated (trace w') = navigated (trace w)
             /\ scraped (trace w') = scraped (trace w).
Proof.
  destruct w as [d f s c t].
  unfold extract_pdf_urls, bind, print, emit, ret.
  destruct (bool_decide (Re.findall html = [])); simpl;
    eexists; (split; [reflexivity|]); frame.
Qed.

Lemma main_after_ensure_output_dir env remote_api_urls w :
  main env remote_api_urls w
  = (ensure_output_dir env "PDFs" ;;;
     get_data <- map_each remote_api_urls (get_data_from_url env) ;;
     final_pdf_list <- extract_pdf_urls (String.concat EmptyString get_data) ;;
     resolve_and_download env "PDFs" (remove_duplicates final_pdf_list)) w.
Proof.
  unfold main, ensure_output_dir, bind, directory_exists.
  destruct (bool_decide _); simpl; [reflexivity|].
  destruct (create_directory env "PDFs" w) as [[[]|e] w1]; reflexivity.
Qed.



(* ===================================================================== *)
(** ** Filenames and basenames *)
(* ===================================================================== *)



(* ===================================================================== *)
(** ** The matches of the pattern *)
(* ===================================================================== *)

Lemma take_app_length a k r :
  take (String.length a + k) (a +:+ r) = a +:+ take k r.
Proof.
  induction a as [|c a IH]; [reflexivity|].
  rewrite sapp_cons. simpl. rewrite IH. reflexivity.
Qed.

Lemma digits_len_take s : sforall is_digit (take (Re.digits_len s) s) = true.
Proof.
  induction s as [|c s IH]; simpl; [reflexivity|].
  destruct (is_digit c) eqn:E; simpl; [|reflexivity].
  rewrite E. exact IH.
Qed.

Lemma match_tail_shape s n :
  Re.match_tail s = Some n ->
  exists digits,
    take n s = Re.pdf_literal +:+ digits
    /\ digits <> EmptyString /\ sforall is_digit digits = true.
Proof.
  unfold Re.match_tail.
  destruct (strip_prefix Re.pdf_literal s) as [r|] eqn:E; [|discriminate].
  destruct (Re.digits_len r) as [|d] eqn:Ed; [discriminate|]. intros [= <-].
  apply strip_prefix_split in E. subst s.
  exists (take (S d) r). split; [exact (take_app_length Re.pdf_literal (S d) r)|]. split.
  - destruct r; [discriminate|]. discriminate.
  - rewrite <- Ed. apply digits_len_take.
Qed.

Lemma match_star_shape s n :
  Re.match_star s = Some n ->
  exists body digits,
    take n s = body +:+ Re.pdf_literal +:+ digits
    /\ sforall Re.url_char body = true
    /\ digits <> EmptyString /\ sforall is_digit digits = true.
Proof.
  revert n. induction s as [|c s IH]; intros n; cbn [Re.match_star].
  - intros H. destruct (match_tail_shape _ _ H) as (d & H1 & H2 & H3).
    exists EmptyString, d. auto.
  - assert (Htail : Re.match_tail (String c s) = Some n ->
              exists body digits,
                take n (String c s) = body +:+ Re.pdf_literal +:+ digits
                /\ sforall Re.url_char body = true
                /\ digits <> EmptyString /\ sforall is_digit digits = true).
    { intros H. destruct (match_tail_shape _ _ H) as (d & H1 & H2 & H3).
      exists EmptyString, d. auto. }
    destruct (Re.url_char c) eqn:Ec; [|exact Htail].
    destruct (Re.match_star s) as [k|] eqn:Ek; [|exact Htail].
    intros [= <-]. destruct (IH k eq_refl) as (body & d & H1 & H2 & H3 & H4).
    exists (String c body), d. simpl. rewrite H1, Ec, H2. auto.
Qed.

Lemma match_plus_shape s n :
  Re.match_plus s = Some n ->
  exists body digits,
    take n s = body +:+ Re.pdf_literal +:+ digits
    /\ body <> EmptyString /\ sforall Re.url_char body = true
    /\ digits <> EmptyString /\ sforall is_digit digits = true.
Proof.
  unfold Re.match_plus. destruct s as [|c s]; [discriminate|].
  destruct (Re.url_char c) eqn:Ec; [|discriminate].
  destruct (Re.match_star s) as [k|] eqn:Ek; [|discriminate]. intros [= <-].
  destruct (match_star_shape _ _ Ek) as (body & d & H1 & H2 & H3 & H4).
  exists (String c body), d. simpl. rewrite H1, Ec, H2.
  split; [reflexivity|]. split; [discriminate|]. auto.
Qed.

Lemma match_after_scheme_shape s n :
  Re.match_after_scheme s = Some n ->
  exists body digits,
    take n s = "://" +:+ body +:+ Re.pdf_literal +:+ digits
    /\ body <> EmptyString /\ sforall Re.url_char body = true
    /\ digits <> EmptyString /\ sforall is_digit digits = true.
Proof.
  unfold Re.match_after_scheme.
  destruct (strip_prefix "://" s) as [r|] eqn:E; [|discriminate].
  destruct (Re.match_plus r) as [k|] eqn:Ek; [|discriminate]. intros [= <-].
  apply strip_prefix_split in E. subst s.
  destruct (match_plus_shape _ _ Ek) as (body & d & H1 & H2).
  exists body, d. split; [|exact H2].
  etransitivity; [exact (take_app_length "://" k r)|].
  rewrite H1. reflexivity.
Qed.

Lemma match_here_shape s n :
  Re.match_here s = Some n -> pdf_link_shape (take n s).
Proof.
  unfold Re.match_here.
  destruct (strip_prefix "http" s) as [r|] eqn:E; [|discriminate].
  apply strip_prefix_split in E. subst s.
  assert (Hplain : option_map (Nat.add 4) (Re.match_after_scheme r) = Some n ->
            pdf_link_shape (take n ("http" +:+ r))).
  { destruct (Re.match_after_scheme r) as [k|] eqn:Ek; [|discriminate]. intros [= <-].
    destruct (match_after_scheme_shape _ _ Ek) as (body & d & H1 & H2).
    exists "http"%string, body, d. split; [auto|]. split; [|exact H2].
    etransitivity; [exact (take_app_length "http" k r)|].
    rewrite H1. reflexivity. }
  destruct r as [|c r']; [exact Hplain|].
  destruct (Ascii.eqb c "s") eqn:Ec; [|exact Hplain].
  destruct (Re.match_after_scheme r') as [k|] eqn:Ek; [|exact Hplain].
  simpl. intros [= <-]. apply Ascii.eqb_eq in Ec. subst c.
  destruct (match_after_scheme_shape _ _ Ek) as (body & d & H1 & H2).
  exists "https"%string, body, d. split; [auto|]. split; [|exact H2].
  etransitivity; [exact (take_app_length "https" k r')|].
  rewrite H1. reflexivity.
Qed.

(** Whatever [findall] returns has the shape of the pattern. *)
Lemma findall_shape html m : In m (Re.findall html) -> pdf_link_shape m.
Proof.
  unfold Re.findall. generalize 0 as inside.
  induction html as [|c s IH]; intros inside; cbn [Re.findall_from]; [intros []|].
  destruct inside as [|k]; [|apply IH].
  destruct (Re.match_here (String c s)) as [n|] eqn:E; [|apply IH].
  intros [<-|H]; [apply (match_here_shape _ _ E)|apply (IH _ H)].
Qed.

(* ===================================================================== *)
(** ** The link extractor and the removal of duplicates *)
(* ===================================================================== *)

Lemma existsb_eqb_In (k : string) (d : list string) :
  existsb (String.eqb k) d = true <-> In k d.
Proof.
  rewrite existsb_exists. split.
  - intros (x & Hx & He). apply String.eqb_eq in He. subst. exact Hx.
  - intros H. exists k. split; [exact H|apply String.eqb_refl].
Qed.

Lemma dict_add_key_spec d k :
  NoDup d ->
  NoDup (dict_add_key d k)
  /\ (forall x, In x (dict_add_key d k) <-> In x d \/ x = k)
  /\ dict_add_key d k = (if existsb (String.eqb k) d then d else d ++ [k]).
Proof.
  intros Hd. unfold dict_add_key. destruct (existsb (String.eqb k) d) eqn:E.
  - apply existsb_eqb_In in E. split; [exact Hd|]. split; [|reflexivity].
    intros x. split; [auto|]. intros [H| ->]; assumption.
  - assert (Hk : ~ In k d).
    { intros H. apply existsb_eqb_In in H. congruence. }
    split; [|split; [|reflexivity]].
    + apply NoDup_app. split; [exact Hd|]. split.
      * intros x Hx Hx'. apply list_elem_of_In in Hx, Hx'.
        destruct Hx' as [<-|[]]. contradiction.
      * apply NoDup_singleton.
    + intros x. rewrite in_app_iff. simpl. intuition congruence.
Qed.

Lemma fold_dict_add_key_spec seq d :
  NoDup d ->
  NoDup (fold_left dict_add_key seq d)
  /\ (forall x, In x (fold_left dict_add_key seq d) <-> In x d \/ In x seq)
  /\ exists rest, fold_left dict_add_key seq d = d ++ rest.
Proof.
  revert d. induction seq as [|k seq IH]; intros d Hd; simpl.
  - split; [exact Hd|]. split; [intuition|]. exists []. rewrite app_nil_r. reflexivity.
  - destruct (dict_add_key_spec d k Hd) as (Hn & Hi & He).
    destruct (IH _ Hn) as (Hn' & Hi' & rest & Hr).
    split; [exact Hn'|]. split.
    + intros x. rewrite Hi', Hi. intuition.
    + rewrite Hr, He. destruct (existsb (String.eqb k) d).
      * exists rest. reflexivity.
      * exists (k :: rest). rewrite <- app_assoc. reflexivity.
Qed.

(** C2, as stated, fails: [extract_pdf_urls] returns every match, the
    repeated ones included; [main] removes the duplicates afterwards. *)
Lemma extract_pdf_urls_keeps_duplicates :
  (extract_pdf_urls html_three_times empty_world).1
  = Ok [example_link; example_link; example_link]
  /\ (extract_pdf_urls html_three_times empty_world).1 <> Ok [example_link].
Proof. split; [reflexivity|discriminate]. Qed.

(** C2, amended. [extract_pdf_urls] returns the matches of the pattern
    from left to right, each of the shape the pattern describes, and
    [remove_duplicates], which [main] applies to that list, keeps each
    link once, at the place where it is first seen: right after the
    distinct links seen before it. On the page with the same link three
    times the two together give that link once. *)
Theorem remove_duplicates_first_seen :
  (forall (html : string) (w : World),
      (extract_pdf_urls html w).1 = Ok (Re.findall html))
  /\ (forall html m : string, In m (Re.findall html) -> pdf_link_shape m)
  /\ (forall seq : list string,
        NoDup (remove_duplicates seq)
        /\ (forall x, In x (remove_duplicates seq) <-> In x seq)
        /\ (forall x, In x seq ->
              count_occ String.string_dec (remove_duplicates seq) x = 1))
  /\ (forall (l1 : list string) (x : string) (l2 : list string),
        ~ In x l1 ->
        exists rest,
          remove_duplicates (l1 ++ x :: l2) = remove_duplicates l1 ++ x :: rest)
  /\ Re.findall html_three_times = [example_link; example_link; example_link]
  /\ remove_duplicates (Re.findall html_three_times) = [example_link].
Proof.
  assert (Hspec : forall seq,
             NoDup (remove_duplicates seq)
             /\ (forall x, In x (remove_duplicates seq) <-> In x seq)).
  { intros seq. unfold remove_duplicates, dict_fromkeys.
    destruct (fold_dict_add_key_spec seq [] NoDup_nil_2) as (Hn & Hi & _).
    split; [exact Hn|]. intros x. rewrite Hi. simpl. intuition. }
  split; [|split; [exact findall_shape|split; [|split; [|split; reflexivity]]]].
  - intros html w. destruct (extract_pdf_urls_returns html w) as (w' & H & _).
    rewrite H. reflexivity.
  - intros seq. destruct (Hspec seq) as [Hn Hi]. split; [exact Hn|]. split; [exact Hi|].
    intros x Hx. apply NoDup_count_occ'; [apply NoDup_ListNoDup, Hn|apply Hi, Hx].
  - intros l1 x l2 Hx. destruct (Hspec l1) as [Hn Hi].
    unfold remove_duplicates, dict_fromkeys in *.
    rewrite fold_left_app. simpl.
    destruct (dict_add_key_spec (fold_left dict_add_key l1 []) x Hn) as (Hn' & _ & He).
    destruct (fold_dict_add_key_spec l2 _ Hn') as (_ & _ & rest & Hr).
    rewrite Hr, He.
    destruct (existsb _ _) eqn:E.
    + apply existsb_eqb_In, Hi in E. contradiction.
    + exists rest. rewrite <- app_assoc. reflexivity.
Qed.

(* ===================================================================== *)
(** ** The theorems at work on one run *)
(* ===================================================================== *)

Lemma download_pdf_at_most_once_witness :
  url_to_filename example_link = Ok ".pdf"%string
  /\ (download_pdf example_env example_link "PDFs" world_with_dir).1 = Ok true
  /\ is_Some (files (download_pdf example_env example_link "PDFs" world_with_dir).2
              !! ("PDFs"%string, ".pdf"%string))
  /\ opened_count
       (trace (download_pdf example_env example_link "PDFs"
                 (download_pdf example_env example_link "PDFs" world_with_dir).2).2)
     <= 1.
Proof.
  split; [reflexivity|]. split; [reflexivity|].
  pose proof (download_pdf_at_most_once example_env example_link "PDFs" world_with_dir
                ".pdf" eq_refl) as (_ & _ & Hp & _ & Hc).
  split; [apply Hp; reflexivity|exact Hc].
Defined.


Lemma get_final_url_teardown_witness :
  env_chrome example_env (clock empty_world) = Ok tt
  /\ env_set_page_load_timeout example_env (S (clock empty_world)) = Ok tt
  /\ (get_final_url example_env example_link empty_world).1 = Ok example_link
  /\ sessions (get_final_url example_env example_link empty_world).2 = 0.
Proof.
  split; [reflexivity|]. split; [reflexivity|].
  pose proof (get_final_url_teardown example_env example_link empty_world
                eq_refl eq_refl) as (_ & Hs & _ & _ & _ & Hu).
  split; [apply Hu; reflexivity|exact Hs].
Defined.


Lemma is_url_valid_characterization_witness :
  UrlLib.urlparse "http://[" = Raise (ValueError "Invalid IPv6 URL")
  /\ is_url_valid "http://[" = false.
Proof.
  split; [reflexivity|].
  exact (proj1 (proj2 is_url_valid_characterization) "http://["%string
           (ValueError "Invalid IPv6 URL") eq_refl).
Defined.


Lemma remove_duplicates_first_seen_witness :
  ~ In "b"%string ["a"%string; "a"%string]
  /\ exists rest,
       remove_duplicates
         (["a"%string; "a"%string] ++ "b"%string :: ["a"%string; "c"%string; "b"%string])
       = remove_duplicates ["a"%string; "a"%string] ++ "b"%string :: rest.
Proof.
  assert (H : ~ In "b"%string ["a"%string; "a"%string]).
  { intros [H|[H|[]]]; discriminate. }
  split; [exact H|].
  exact (proj1 (proj2 (proj2 (proj2 remove_duplicates_first_seen))) _ _ _ H).
Defined.

(* ===================================================================== *)
(** * More properties of the code *)
(* ===================================================================== *)

(* ===================================================================== *)
(** ** [remove_duplicates] *)
(* ===================================================================== *)

Lemma fold_dict_add_key_fresh seq d :
  NoDup seq -> (forall x, In x seq -> ~ In x d) ->
  fold_left dict_add_key seq d = d ++ seq.
Proof.
  revert d. induction seq as [|k seq IH]; intros d Hn Hd; simpl.
  - rewrite app_nil_r. reflexivity.
  - apply NoDup_cons in Hn as [Hk Hn].
    assert (Ek : dict_add_key d k = d ++ [k]).
    { unfold dict_add_key. destruct (existsb (String.eqb k) d) eqn:E; [|reflexivity].
      apply existsb_eqb_In in E. destruct (Hd k); simpl; auto. }
    rewrite Ek, IH; [rewrite <- app_assoc; reflexivity|exact Hn|].
    intros x Hx Hin. apply in_app_iff in Hin as [Hin|[<-|[]]].
    + apply (Hd x); simpl; auto.
    + apply Hk, list_elem_of_In, Hx.
Qed.

Lemma fold_dict_add_key_length seq d :
  length (fold_left dict_add_key seq d) <= length d + length seq.
Proof.
  revert d. induction seq as [|k seq IH]; intros d; simpl; [lia|].
  specialize (IH (dict_add_key d k)).
  assert (length (dict_add_key d k) <= S (length d)).
  { unfold dict_add_key. destruct (existsb _ d); [lia|].
    rewrite length_app. simpl. lia. }
  lia.
Qed.

(** X1. [remove_duplicates] returns its argument as it is exactly when
    the argument has no duplicates; applying it twice is applying it
    once; the result is never longer than the argument. *)
Theorem remove_duplicates_idempotent (seq : list string) :
  (remove_duplicates seq = seq <-> NoDup seq)
  /\ remove_duplicates (remove_duplicates seq) = remove_duplicates seq
  /\ length (remove_duplicates seq) <= length seq.
Proof.
  assert (Hfix : forall l, NoDup l -> remove_duplicates l = l).
  { intros l Hl. unfold remove_duplicates, dict_fromkeys.
    rewrite fold_dict_add_key_fresh; [reflexivity|exact Hl|]. intros x _ []. }
  assert (Hnd : NoDup (remove_duplicates seq)).
  { unfold remove_duplicates, dict_fromkeys.
    apply (fold_dict_add_key_spec seq [] NoDup_nil_2). }
  split; [split|split].
  - intros <-. exact Hnd.
  - apply Hfix.
  - apply Hfix, Hnd.
  - unfold remove_duplicates, dict_fromkeys.
    apply (fold_dict_add_key_length seq []).
Qed.

(* ===================================================================== *)
(** ** What the steps leave as it is *)
(* ===================================================================== *)

Section Preserves.

Variable R : World -> World -> Prop.
Hypothesis R_files : forall w w', files w' = files w -> R w w'.
Hypothesis R_trans : forall w1 w2 w3, R w1 w2 -> R w2 w3 -> R w1 w3.

Lemma preserves_ret {A} (a : A) : preserves R (ret a).
Proof. intros w. apply R_files. reflexivity. Qed.

Lemma preserves_raise {A} (e : exn) : preserves R (@raise A e).
Proof. intros w. apply R_files. reflexivity. Qed.

Lemma preserves_lift {A} (r : result A) : preserves R (lift r).
Proof. intros w. apply R_files. reflexivity. Qed.

Lemma preserves_emit ev : preserves R (emit ev).
Proof. intros w. apply R_files. reflexivity. Qed.

Lemma preserves_ask {A} (answer : nat -> result A) : preserves R (ask answer).
Proof. intros w. apply R_files. reflexivity. Qed.

Lemma preserves_set_sessions f : preserves R (set_sessions f).
Proof. intros w. apply R_files. reflexivity. Qed.

Lemma preserves_add_dir d : preserves R (add_dir d).
Proof. intros w. apply R_files. reflexivity. Qed.

Lemma preserves_bind {A B} (m : M A) (k : A -> M B) :
  preserves R m -> (forall a, preserves R (k a)) -> preserves R (bind m k).
Proof.
  intros Hm Hk w. unfold bind. specialize (Hm w).
  destruct (m w) as [[a|e] w1]; simpl in *; [|exact Hm].
  apply (R_trans _ _ _ Hm), Hk.
Qed.

Lemma preserves_try_except {A} (body : M A) (handler : exn -> M A) :
  preserves R body -> (forall e, preserves R (handler e)) ->
  preserves R (try_except body handler).
Proof.
  intros Hb Hh w. unfold try_except. specialize (Hb w).
  destruct (body w) as [[a|e] w1]; simpl in *; [exact Hb|].
  apply (R_trans _ _ _ Hb), Hh.
Qed.

Lemma preserves_try_finally {A} (body : M A) (cleanup : M unit) :
  preserves R body -> preserves R cleanup -> preserves R (try_finally body cleanup).
Proof.
  intros Hb Hc w. unfold try_finally. specialize (Hb w).
  destruct (body w) as [r w1]. specialize (Hc w1). simpl in *.
  destruct (cleanup w1) as [[[]|e] w2]; simpl in *; apply (R_trans _ _ _ Hb Hc).
Qed.

Lemma preserves_for_each {A} (l : list A) (body : A -> M unit) :
  (forall x, preserves R (body x)) -> preserves R (for_each l body).
Proof.
  intros Hb. induction l as [|x l IH]; cbn [for_each].
  - apply preserves_ret.
  - apply preserves_bind; [apply Hb|intros _; exact IH].
Qed.

Lemma preserves_map_each {A B} (l : list A) (body : A -> M B) :
  (forall x, preserves R (body x)) -> preserves R (map_each l body).
Proof.
  intros Hb. induction l as [|x l IH]; cbn [map_each].
  - apply preserves_ret.
  - apply preserves_bind; [apply Hb|intros y].
    apply preserves_bind; [exact IH|intros ys; apply preserves_ret].
Qed.

Lemma preserves_requests_get env url timeout stream :
  preserves R (requests_get env url timeout stream).
Proof.
  unfold requests_get. apply preserves_bind; [apply preserves_emit|intros _].
  apply preserves_bind; [apply preserves_ask|intros resp].
  destruct (negb stream && body_breaks resp); [apply preserves_raise|apply preserves_ret].
Qed.

Lemma preserves_raise_for_status resp : preserves R (raise_for_status resp).
Proof.
  unfold raise_for_status.
  destruct (is_error_status _); [apply preserves_raise|apply preserves_ret].
Qed.

Lemma preserves_get_data_from_url env uri : preserves R (get_data_from_url env uri).
Proof.
  unfold get_data_from_url, print.
  apply preserves_bind; [apply preserves_emit|intros _].
  apply preserves_try_except.
  - apply preserves_bind; [apply preserves_requests_get|intros resp].
    apply preserves_bind; [apply preserves_raise_for_status|intros _; apply preserves_ret].
  - intros e. apply preserves_bind; [apply preserves_emit|intros _; apply preserves_ret].
Qed.

Lemma preserves_create_directory env path : preserves R (create_directory env path).
Proof.
  unfold create_directory, print. apply preserves_try_except.
  - apply preserves_bind; [apply preserves_ask|intros _; apply preserves_add_dir].
  - intros e. apply preserves_emit.
Qed.

Lemma preserves_extract_pdf_urls html : preserves R (extract_pdf_urls html).
Proof.
  unfold extract_pdf_urls, print. apply preserves_bind; [|intros _; apply preserves_ret].
  destruct (bool_decide _); [apply preserves_emit|apply preserves_ret].
Qed.

Lemma preserves_get_final_url env url : preserves R (get_final_url env url).
Proof.
  unfold get_final_url, webdriver_Chrome, driver_set_page_load_timeout, driver_quit,
    driver_get, driver_current_url, time_sleep, print.
  repeat first
    [ apply preserves_bind | apply preserves_try_finally | apply preserves_try_except
    | apply preserves_emit | apply preserves_ask | apply preserves_set_sessions
    | apply preserves_ret | intros ? ].
Qed.

(** [main] leaves as it is what [download_pdf] leaves as it is. *)
Lemma preserves_main env remote_api_urls :
  (forall url dir, preserves R (download_pdf env url dir)) ->
  preserves R (main env remote_api_urls).
Proof.
  intros Hd. unfold main, directory_exists, resolve_and_download.
  apply preserves_bind; [intros w; apply R_files; reflexivity|intros present].
  apply preserves_bind;
    [destruct (negb present); [apply preserves_create_directory|apply preserves_ret]|intros _].
  apply preserves_bind; [apply preserves_map_each, preserves_get_data_from_url|intros get_data].
  apply preserves_bind; [apply preserves_extract_pdf_urls|intros links].
  apply preserves_for_each. intros link.
  apply preserves_bind; [apply preserves_get_final_url|intros resolved_url].
  destruct (is_url_valid resolved_url); [|apply preserves_ret].
  apply preserves_bind; [apply Hd|intros _; apply preserves_ret].
Qed.

End Preserves.

Lemma files_kept_of_same w w' : files w' = files w -> files_kept w w'.
Proof. intros H p bytes. rewrite H. trivial. Qed.

Lemma files_kept_trans w1 w2 w3 : files_kept w1 w2 -> files_kept w2 w3 -> files_kept w1 w3.
Proof. unfold files_kept. auto. Qed.

(* ===================================================================== *)
(** ** More on the downloader *)
(* ===================================================================== *)

Lemma concat_empty_cons (x : string) (xs : list string) :
  String.concat EmptyString (x :: xs) = x +:+ String.concat EmptyString xs.
Proof.
  destruct xs as [|y ys]; simpl.
  - rewrite sapp_empty_r. reflexivity.
  - reflexivity.
Qed.

Lemma append_chunks_insert (p : FilePath) (chunks : list string) (acc : string)
    (fs : gmap FilePath string) :
  append_chunks p chunks (<[ p := acc ]> fs)
  = <[ p := acc +:+ String.concat EmptyString chunks ]> fs.
Proof.
  revert acc. unfold append_chunks.
  induction chunks as [|c chunks IH]; intros acc.
  - simpl. rewrite sapp_empty_r. reflexivity.
  - cbn [fold_left]. rewrite lookup_insert_eq. cbn [default].
    rewrite insert_insert_eq, IH, concat_empty_cons, sapp_assoc. reflexivity.
Qed.

Lemma append_chunks_other (p q : FilePath) (chunks : list string)
    (fs : gmap FilePath string) :
  q <> p -> append_chunks p chunks fs !! q = fs !! q.
Proof.
  intros Hq. revert fs. unfold append_chunks.
  induction chunks as [|c chunks IH]; intros fs; [reflexivity|].
  cbn [fold_left]. rewrite IH. apply lookup_insert_ne. congruence.
Qed.

Lemma download_fresh_files_kept env url p w :
  files w !! p = None -> files_kept w (download_fresh env url p w).2.
Proof.
  intros Hp q bytes Hq.
  assert (Hne : q <> p) by congruence.
  unfold download_fresh.
  destruct (env_requests_get env (clock w) url) as [resp|e]; [|exact Hq].
  destruct (is_error_status _); [exact Hq|].
  destruct (negb _); [exact Hq|].
  destruct (bool_decide _); [|exact Hq].
  destruct (env_open_wb _ _ _); [|exact Hq].
  destruct (body_breaks resp); simpl;
    rewrite (append_chunks_other _ _ _ _ Hne), lookup_insert_ne by congruence; exact Hq.
Qed.

Lemma download_pdf_unparsable env url dir w e :
  UrlLib.urlparse (lower url) = Raise e -> download_pdf env url dir w = (Raise e, w).
Proof.
  intros H. unfold download_pdf, bind, lift, url_to_filename, get_filename.
  rewrite H. reflexivity.
Qed.

Lemma download_pdf_files_kept env url dir : preserves files_kept (download_pdf env url dir).
Proof.
  intros w. destruct (UrlLib.urlparse (lower url)) as [r|e] eqn:Hr.
  - pose proof (url_to_filename_of_parse _ _ Hr) as Hn.
    set (name := filename_of_basename _) in Hn.
    destruct (files w !! (dir, name)) as [bytes|] eqn:E.
    + rewrite (download_pdf_skip env url dir w name Hn) by (rewrite E; eauto).
      apply files_kept_of_same. reflexivity.
    + rewrite (download_pdf_fresh env url dir w name Hn E).
      apply download_fresh_files_kept, E.
  - rewrite (download_pdf_unparsable _ _ _ _ _ Hr). apply files_kept_of_same. reflexivity.
Qed.

(** X3. A file that is in place when [download_pdf] or [main] starts is
    still there afterwards with the same bytes, whatever the outside
    world answers and whether the call returns or raises: nothing is
    overwritten, truncated or removed. *)
Theorem existing_files_are_kept (env : Env) (w : World) (p : FilePath) (bytes : string) :
  files w !! p = Some bytes ->
  (forall url dir, files (download_pdf env url dir w).2 !! p = Some bytes)
  /\ (forall remote_api_urls, files (main env remote_api_urls w).2 !! p = Some bytes).
Proof.
  intros Hp. split.
  - intros url dir. apply (download_pdf_files_kept env url dir w p bytes Hp).
  - intros seeds.
    apply (preserves_main files_kept files_kept_of_same files_kept_trans env seeds
             (download_pdf_files_kept env) w p bytes Hp).
Qed.

Lemma existing_files_are_kept_witness :
  files world_with_file !! ("PDFs"%string, "label.pdf"%string) = Some "%PDF-1.4"%string
  /\ files (main example_env [example_seed] world_with_file).2
       !! ("PDFs"%string, "label.pdf"%string) = Some "%PDF-1.4"%string.
Proof.
  split; [reflexivity|].
  apply (existing_files_are_kept example_env world_with_file
           ("PDFs"%string, "label.pdf"%string) "%PDF-1.4"%string).
  reflexivity.
Defined.

(** X4. [download_pdf] raises in one case only: when [urlparse] rejects
    the URL in lower case, the text [url_to_filename] hands to it. It
    then raises what [urlparse] raised and has done nothing: no print,
    no request, no write. On every other URL it returns a boolean,
    whatever the outside world does. *)
Theorem download_pdf_raises_only_on_unparsable (env : Env) (url dir : string) (w : World) :
  match UrlLib.urlparse (lower url) with
  | Raise e => download_pdf env url dir w = (Raise e, w)
  | Ok _ => exists b : bool, (download_pdf env url dir w).1 = Ok b
  end.
Proof.
  destruct (UrlLib.urlparse (lower url)) as [r|e] eqn:Hr.
  - pose proof (url_to_filename_of_parse _ _ Hr) as Hn.
    set (name := filename_of_basename _) in Hn.
    destruct (files w !! (dir, name)) as [bytes|] eqn:E.
    + rewrite (download_pdf_skip env url dir w name Hn) by (rewrite E; eauto). eauto.
    + rewrite (download_pdf_fresh env url dir w name Hn E).
      destruct (download_fresh_returns env url (dir, name) w) as (b & w' & H & _).
      rewrite H. eauto.
  - apply (download_pdf_unparsable _ _ _ _ _ Hr).
Qed.



(** X6. When the body breaks after the file was opened, [download_pdf]
    returns [False] and prints the failure, but the file stays, holding
    the chunks that arrived; every later call for the same URL and
    directory then skips, so the truncated file is never replaced. *)
Theorem broken_download_leaves_partial_file (env : Env) (url dir : string) (w : World)
    (name : string) (resp : Response) :
  url_to_filename url = Ok name ->
  files w !! (dir, name) = None ->
  dir ∈ dirs w ->
  env_requests_get env (clock w) url = Ok resp ->
  is_error_status (status_code resp) = false ->
  acceptable_content_type (content_type_of resp) = true ->
  env_open_wb env (S (clock w)) (dir, name) = Ok tt ->
  body_breaks resp = true ->
  let out := download_pdf env url dir w in
  out.1 = Ok false
  /\ files out.2 = <[ (dir, name) := response_text resp ]> (files w)
  /\ trace out.2
     = trace w ++ [HttpGet url 900 true; FileOpened (dir, name);
                   Printed (MsgFailedToDownload url RequestException)]
  /\ forall env', download_pdf env' url dir out.2 = (Ok false, skipped (dir, name) out.2).
Proof.
  intros Hn Hf Hd Hg Hs Ha Ho Hb out. subst out.
  rewrite (download_pdf_fresh env url dir w name Hn Hf).
  unfold download_fresh. rewrite Hg, Hs, Ha. cbn [negb fst].
  rewrite bool_decide_eq_true_2 by exact Hd. rewrite Ho, Hb. cbn [fst snd].
  assert (Hfiles : files (push [Printed (MsgFailedToDownload url RequestException)]
                     (mkWorld (dirs w)
                        (append_chunks (dir, name) (body_chunks resp)
                           (<[ (dir, name) := EmptyString ]> (files w)))
                        (sessions w) (S (S (clock w)))
                        (trace w ++ [HttpGet url 900 true; FileOpened (dir, name)])))
                   = <[ (dir, name) := response_text resp ]> (files w)).
  { simpl. rewrite append_chunks_insert. reflexivity. }
  split; [reflexivity|]. split; [exact Hfiles|]. split.
  - simpl. rewrite <- app_assoc. reflexivity.
  - intros env'. apply (download_pdf_skip env' url dir _ name Hn).
    rewrite Hfiles, lookup_insert_eq. eauto.
Qed.

Lemma broken_download_leaves_partial_file_witness :
  url_to_filename example_link = Ok ".pdf"%string
  /\ (download_pdf example_env_broken example_link "PDFs" world_with_dir).1 = Ok false
  /\ files (download_pdf example_env_broken example_link "PDFs" world_with_dir).2
     = <[ ("PDFs"%string, ".pdf"%string) := "%PDF-1.7 "%string ]> ∅.
Proof.
  split; [reflexivity|].
  assert (Hd : "PDFs"%string ∈ dirs world_with_dir)
    by (unfold world_with_dir; cbn [dirs]; set_solver).
  destruct (broken_download_leaves_partial_file example_env_broken example_link "PDFs"
              world_with_dir ".pdf"
              (mkResponse 200 (Some "application/pdf"%string) ["%PDF-1.7 "%string] true)
              eq_refl eq_refl Hd eq_refl eq_refl eq_refl eq_refl eq_refl)
    as (H1 & H2 & _).
  split; [exact H1|exact H2].
Defined.

(* ===================================================================== *)
(** ** The output directory, the page fetcher and the browser *)
(* ===================================================================== *)

(** X7. [create_directory] never raises and asks the system once. When
    [makedirs] succeeds the directory is there afterwards, as
    [directory_exists] reports, all earlier directories are still there
    and nothing is printed; when [makedirs] raises, the directories are
    as before and the error is printed. *)
Theorem create_directory_never_raises (env : Env) (path : string) (w : World) :
  let out := create_directory env path w in
  out.1 = Ok tt
  /\ clock out.2 = S (clock w)
  /\ match env_makedirs env (clock w) path with
     | Ok _ =>
         trace out.2 = trace w
         /\ (directory_exists path out.2).1 = Ok true
         /\ (forall d, (directory_exists d w).1 = Ok true ->
                       (directory_exists d out.2).1 = Ok true)
     | Raise e =>
         trace out.2 = trace w ++ [Printed (MsgErrorCreatingDirectory path e)]
         /\ dirs out.2 = dirs w
     end.
Proof.
  destruct w as [d f s c t].
  unfold create_directory, try_except, bind, ask, add_dir, print, emit, directory_exists.
  simpl. destruct (env_makedirs env c path) as [[]|e]; simpl.
  - split; [reflexivity|]. split; [reflexivity|]. split; [reflexivity|]. split.
    + rewrite bool_decide_eq_true_2 by set_solver. reflexivity.
    + intros d0 [= H]. apply bool_decide_eq_true in H.
      rewrite bool_decide_eq_true_2 by set_solver. reflexivity.
  - auto.
Qed.

Lemma get_data_from_url_scrape env uri w :
  get_data_from_url env uri w = scrape env uri w.
Proof.
  destruct w as [d f s c t].
  unfold get_data_from_url, scrape, try_except, requests_get, raise_for_status,
    bind, print, emit, ask, push. simpl.
  destruct (env_requests_get env c uri) as [resp|e]; simpl.
  - destruct (body_breaks resp); simpl; [rewrite <- !app_assoc; reflexivity|].
    destruct (is_error_status (status_code resp)); simpl;
      rewrite <- !app_assoc; reflexivity.
  - rewrite <- !app_assoc. reflexivity.
Qed.

(** X8. [get_data_from_url] never raises and makes one GET, with a
    time-out of 60 and no streaming, after announcing the page. It
    returns the text of the body when the GET returns, the body arrives
    whole and the status passes [raise_for_status]; in every other case
    it prints the error and returns the empty string. *)
Theorem get_data_from_url_outcome (env : Env) (uri : string) (w : World) :
  let out := get_data_from_url env uri w in
  let answer := env_requests_get env (clock w) uri in
  clock out.2 = S (clock w)
  /\ requested (trace out.2) = requested (trace w) ++ [uri]
  /\ (if page_fetched answer
      then exists resp, answer = Ok resp
             /\ out.1 = Ok (response_text resp)
             /\ trace out.2 = trace w ++ [Printed (MsgScraping uri); HttpGet uri 60 false]
      else exists e,
             out.1 = Ok EmptyString
             /\ trace out.2
                = trace w ++ [Printed (MsgScraping uri); HttpGet uri 60 false;
                              Printed (MsgErrorScraping uri e)]).
Proof.
  intros out answer. subst out. rewrite get_data_from_url_scrape.
  unfold scrape. fold answer. unfold page_fetched.
  destruct answer as [resp|e].
  - destruct (body_breaks resp); [|destruct (is_error_status (status_code resp))];
      simpl; rewrite ?requested_app; simpl; rewrite ?app_nil_r;
      (split; [reflexivity|]); (split; [reflexivity|]).
    + exists RequestException. rewrite <- app_assoc. auto.
    + exists (HTTPError (status_code resp)). rewrite <- app_assoc. auto.
    + exists resp. auto.
  - simpl. rewrite !requested_app. simpl. rewrite app_nil_r.
    split; [reflexivity|]. split; [reflexivity|].
    exists e. rewrite <- app_assoc. auto.
Qed.

(** X9. What [get_final_url] does when the browser does not come up.
    When [webdriver.Chrome] raises, the exception goes to the caller and
    no session was opened. When [set_page_load_timeout] raises, the
    exception goes to the caller as well, but with the session just
    started still open: that call is in front of the [try] whose
    [finally] quits the browser. With both calls returned the function
    returns and no session is left. *)
Theorem get_final_url_startup_failure (env : Env) (input_url : string) (w : World) :
  let out := get_final_url env input_url w in
  match env_chrome env (clock w) with
  | Raise e =>
      out = (Raise e,
             mkWorld (dirs w) (files w) (sessions w) (S (clock w)) (trace w))
  | Ok _ =>
      match env_set_page_load_timeout env (S (clock w)) with
      | Raise e =>
          out = (Raise e,
                 mkWorld (dirs w) (files w) (S (sessions w)) (S (S (clock w)))
                   (trace w ++ [BrowserStarted]))
      | Ok _ => (exists final_url, out.1 = Ok final_url) /\ sessions out.2 = sessions w
      end
  end.
Proof.
  intros out. subst out.
  destruct (env_chrome env (clock w)) as [[]|e] eqn:Hc.
  - destruct (env_set_page_load_timeout env (S (clock w))) as [[]|e] eqn:Ht.
    + rewrite (get_final_url_started _ _ _ Hc Ht). unfold resolved.
      destruct (env_driver_get _ _ _); [destruct (env_current_url _ _ _)|];
        simpl; eauto.
    + unfold get_final_url, webdriver_Chrome, driver_set_page_load_timeout, bind, ask,
        set_sessions, emit. simpl. rewrite Hc. simpl. rewrite Ht. reflexivity.
  - unfold get_final_url, webdriver_Chrome, bind, ask. rewrite Hc. reflexivity.
Qed.

(* ===================================================================== *)
(** ** A run that gets no page *)
(* ===================================================================== *)

Lemma scrape_no_page env uri w :
  page_fetched (env_requests_get env (clock w) uri) = false ->
  exists e,
    scrape env uri w
    = (Ok EmptyString,
       mkWorld (dirs w) (files w) (sessions w) (S (clock w))
         (trace w ++ [Printed (MsgScraping uri); HttpGet uri 60 false;
                      Printed (MsgErrorScraping uri e)])).
Proof.
  unfold scrape, page_fetched, push.
  destruct (env_requests_get env (clock w) uri) as [resp|e]; simpl.
  - destruct (body_breaks resp); simpl.
    + intros _. eexists. rewrite <- app_assoc. reflexivity.
    + destruct (is_error_status (status_code resp)); simpl; [|discriminate].
      intros _. eexists. rewrite <- app_assoc. reflexivity.
  - intros _. eexists. rewrite <- app_assoc. reflexivity.
Qed.

Lemma map_each_no_page env seeds w :
  no_page env ->
  exists bodies w',
    map_each seeds (get_data_from_url env) w = (Ok bodies, w')
    /\ String.concat EmptyString bodies = EmptyString
    /\ files w' = files w
    /\ sessions w' = sessions w
    /\ navigated (trace w') = navigated (trace w)
    /\ requested (trace w') = requested (trace w) ++ seeds.
Proof.
  intros Hno. revert w. induction seeds as [|uri seeds IH]; intros w.
  - exists [], w. simpl. rewrite app_nil_r. repeat split; reflexivity.
  - cbn [map_each]. unfold bind at 1. rewrite get_data_from_url_scrape.
    destruct (scrape_no_page env uri w (Hno _ _)) as [e ->].
    unfold bind at 1.
    match goal with |- context [map_each seeds _ ?w1] =>
      destruct (IH w1) as (bodies & w' & -> & Hc & Hf & Hs & Hn & Hr) end.
    exists (EmptyString :: bodies), w'. unfold ret.
    split; [reflexivity|]. split; [rewrite concat_empty_cons, Hc; reflexivity|].
    simpl in *. rewrite Hr, Hn, !requested_app, !navigated_app. simpl.
    rewrite !app_nil_r, <- app_assoc. auto.
Qed.

Lemma ensure_output_dir_quiet env dir w :
  exists w', ensure_output_dir env dir w = (Ok tt, w')
             /\ files w' = files w
             /\ sessions w' = sessions w
             /\ navigated (trace w') = navigated (trace w)
             /\ requested (trace w') = requested (trace w).
Proof.
  destruct w as [d f s c t].
  unfold ensure_output_dir, directory_exists, create_directory,
    try_except, bind, ask, add_dir, print, emit. simpl.
  destruct (bool_decide (dir ∈ d)); simpl; [eexists; split; [reflexivity|auto]|].
  destruct (env_makedirs env c dir) as [[]|e]; simpl;
    eexists; (split; [reflexivity|]); simpl;
    rewrite ?navigated_app, ?requested_app; simpl; rewrite ?app_nil_r; auto.
Qed.

(** X10. When no page can be fetched (every GET raises, breaks or is
    answered with a status from 400 to 599), [main] still requests every
    seed page in order, then prints that no link was found and returns:
    the browser is never started and no file is touched. *)
Theorem main_without_pages (env : Env) (remote_api_urls : list string) (w : World) :
  no_page env ->
  exists w',
    main env remote_api_urls w = (Ok tt, w')
    /\ files w' = files w
    /\ sessions w' = sessions w
    /\ navigated (trace w') = navigated (trace w)
    /\ requested (trace w') = requested (trace w) ++ remote_api_urls
    /\ exists tr, trace w' = tr ++ [Printed MsgNoPdfUrlsFound].
Proof.
  intros Hno. rewrite main_after_ensure_output_dir.
  destruct (ensure_output_dir_quiet env "PDFs" w) as (wa & Ha & Hfa & Hsa & Hna & Hra).
  destruct (map_each_no_page env remote_api_urls wa Hno)
    as (bodies & wb & Hb & Hc & Hfb & Hsb & Hnb & Hrb).
  unfold bind at 1. rewrite Ha. unfold bind at 1. rewrite Hb.
  unfold bind at 1. rewrite Hc.
  destruct wb as [d f s c t]. simpl in *.
  eexists. split; [reflexivity|]. simpl.
  rewrite navigated_app, requested_app. simpl. rewrite !app_nil_r.
  split; [congruence|]. split; [congruence|]. split; [congruence|].
  split; [congruence|]. eexists. reflexivity.
Qed.

Lemma main_without_pages_witness :
  no_page example_env_down
  /\ exists w',
       main example_env_down [example_seed] empty_world = (Ok tt, w')
       /\ files w' = files empty_world
       /\ sessions w' = sessions empty_world
       /\ navigated (trace w') = navigated (trace empty_world)
       /\ requested (trace w') = requested (trace empty_world) ++ [example_seed]
       /\ exists tr, trace w' = tr ++ [Printed MsgNoPdfUrlsFound].
Proof.
  assert (H : no_page example_env_down) by (intros n uri; reflexivity).
  split; [exact H|].
  exact (main_without_pages example_env_down [example_seed] empty_world H).
Defined.

(* ===================================================================== *)
(** ** More on the filename sanitizer *)
(* ===================================================================== *)

Lemma first_char_sub_underscores s :
  first_char (Re.sub_underscores s) = first_char s.
Proof.
  induction s as [|a s IH]; [reflexivity|].
  cbn [Re.sub_underscores]. destruct s as [|b s']; [reflexivity|].
  destruct (Ascii.eqb a "_" && Ascii.eqb b "_") eqn:E; [|reflexivity].
  rewrite IH. apply andb_prop in E as [Ea Eb].
  apply Ascii.eqb_eq in Ea, Eb. subst. reflexivity.
Qed.

Lemma no_double_underscore_cons a s :
  no_double_underscore (String a s)
  = match first_char s with
    | Some b => negb (Ascii.eqb a "_" && Ascii.eqb b "_") && no_double_underscore s
    | None => true
    end.
Proof. destruct s; reflexivity. Qed.

Lemma no_double_underscore_sub_underscores s :
  no_double_underscore (Re.sub_underscores s) = true.
Proof.
  induction s as [|a s IH]; [reflexivity|].
  cbn [Re.sub_underscores]. destruct s as [|b s']; [reflexivity|].
  destruct (Ascii.eqb a "_" && Ascii.eqb b "_") eqn:E; [exact IH|].
  rewrite no_double_underscore_cons, first_char_sub_underscores. cbn [first_char].
  rewrite E, IH. reflexivity.
Qed.

Lemma no_double_underscore_tail a s :
  no_double_underscore (String a s) = true -> no_double_underscore s = true.
Proof.
  rewrite no_double_underscore_cons. destruct (first_char s) eqn:E.
  - intros H. apply andb_prop in H as [_ H]. exact H.
  - destruct s; [reflexivity|discriminate].
Qed.

Lemma no_double_underscore_lstrip c s :
  no_double_underscore s = true -> no_double_underscore (lstrip c s) = true.
Proof.
  induction s as [|a s IH]; [reflexivity|]. intros H. cbn [lstrip].
  destruct (Ascii.eqb a c); [|exact H].
  apply IH, (no_double_underscore_tail _ _ H).
Qed.

Lemma first_char_lstrip c s : first_char (lstrip c s) <> Some c.
Proof.
  induction s as [|a s IH]; simpl; [discriminate|].
  destruct (Ascii.eqb a c) eqn:E; [exact IH|].
  simpl. intros [= ->]. rewrite Ascii.eqb_refl in E. discriminate.
Qed.

Lemma first_char_rstrip c s :
  first_char (rstrip c s) = None \/ first_char (rstrip c s) = first_char s.
Proof.
  destruct s as [|a s]; [auto|]. cbn [rstrip].
  destruct (rstrip c s); [destruct (Ascii.eqb a c)|]; auto.
Qed.

Lemma no_double_underscore_rstrip c s :
  no_double_underscore s = true -> no_double_underscore (rstrip c s) = true.
Proof.
  induction s as [|a s IH]; [reflexivity|]. intros H.
  pose proof (no_double_underscore_tail _ _ H) as Hs. specialize (IH Hs).
  cbn [rstrip]. destruct (rstrip c s) as [|b r] eqn:E.
  - destruct (Ascii.eqb a c); reflexivity.
  - rewrite no_double_underscore_cons. cbn [first_char]. rewrite IH.
    destruct (first_char_rstrip c s) as [Hf|Hf]; rewrite E in Hf; [discriminate|].
    rewrite no_double_underscore_cons, <- Hf in H. cbn [first_char] in H.
    apply andb_prop in H as [H _]. rewrite H. reflexivity.
Qed.

Lemma last_char_rstrip c s : last_char (rstrip c s) <> Some c.
Proof.
  induction s as [|a s IH]; simpl; [discriminate|].
  destruct (rstrip c s) as [|b r] eqn:E.
  - destruct (Ascii.eqb a c) eqn:Ea; simpl; [discriminate|].
    intros [= ->]. rewrite Ascii.eqb_refl in Ea. discriminate.
  - cbn [last_char] in *. destruct (last_char r); [exact IH|exact IH].
Qed.

Lemma endswith_split suf s : endswith suf s = true -> exists x, s = x +:+ suf.
Proof.
  induction s as [|a s IH]; cbn [endswith].
  - destruct (String.eqb_spec EmptyString suf) as [<-|]; [|discriminate].
    exists EmptyString. reflexivity.
  - destruct (String.eqb_spec (String a s) suf) as [<-|]; [exists EmptyString; reflexivity|].
    intros H. destruct (IH H) as [x ->]. exists (String a x). reflexivity.
Qed.

Lemma length_sapp s t : String.length (s +:+ t) = String.length s + String.length t.
Proof.
  induction s as [|a s IH]; [reflexivity|].
  rewrite sapp_cons. simpl. rewrite IH. reflexivity.
Qed.

Lemma take_length_app x t : take (String.length x) (x +:+ t) = x.
Proof.
  induction x as [|a x IH]; [destruct t; reflexivity|].
  rewrite sapp_cons. simpl. rewrite IH. reflexivity.
Qed.

Lemma drop_last_app x suf : drop_last (String.length suf) (x +:+ suf) = x.
Proof.
  unfold drop_last. rewrite length_sapp.
  replace (String.length x + String.length suf - String.length suf)
    with (String.length x) by lia.
  apply take_length_app.
Qed.

Lemma no_double_underscore_app_l x t :
  no_double_underscore (x +:+ t) = true -> no_double_underscore x = true.
Proof.
  induction x as [|a x IH]; [reflexivity|]. rewrite sapp_cons. intros H.
  pose proof (no_double_underscore_tail _ _ H) as Hs. specialize (IH Hs).
  rewrite no_double_underscore_cons in *. destruct x as [|b x]; [reflexivity|].
  rewrite sapp_cons in H. cbn [first_char] in *.
  apply andb_prop in H as [H _]. rewrite H, IH. reflexivity.
Qed.

Lemma first_char_app x t :
  first_char (x +:+ t) = match first_char x with Some a => Some a | None => first_char t end.
Proof. destruct x; reflexivity. Qed.

Lemma no_double_underscore_last x t :
  no_double_underscore (x +:+ String "_" t) = true -> last_char x <> Some "_".
Proof.
  induction x as [|a x IH]; [discriminate|]. rewrite sapp_cons. intros H.
  pose proof (no_double_underscore_tail _ _ H) as Hs. specialize (IH Hs).
  cbn [last_char]. destruct (last_char x) as [c|] eqn:E; [exact IH|].
  destruct x as [|b x]; [|simpl in E; destruct (last_char x); discriminate].
  rewrite sapp_nil in H. cbn in H. intros [= ->]. discriminate.
Qed.

(** X11. The stem that [url_to_filename] puts in front of the extension
    never starts with an underscore, never ends with one and never has
    two in a row, whatever the basename. *)
Theorem sanitize_underscores (name : string) :
  first_char (sanitize name) <> Some "_"
  /\ last_char (sanitize name) <> Some "_"
  /\ no_double_underscore (sanitize name) = true.
Proof.
  unfold sanitize.
  set (s := strip "_" (Re.sub_underscores (Re.sub_non_alnum name))).
  assert (Hn : no_double_underscore s = true).
  { apply no_double_underscore_rstrip, no_double_underscore_lstrip,
      no_double_underscore_sub_underscores. }
  assert (Hf : first_char s <> Some "_").
  { unfold s, strip.
    destruct (first_char_rstrip "_" (lstrip "_" (Re.sub_underscores (Re.sub_non_alnum name))))
      as [H|H]; rewrite H; [discriminate|apply first_char_lstrip]. }
  assert (Hl : last_char s <> Some "_") by apply last_char_rstrip.
  destruct (endswith "_pdf" s) eqn:E; [|auto].
  destruct (endswith_split _ _ E) as [x Hx]. rewrite Hx in *.
  change 4 with (String.length "_pdf"). rewrite drop_last_app.
  split; [|split].
  - rewrite first_char_app in Hf. destruct (first_char x); [exact Hf|discriminate].
  - apply (no_double_underscore_last x "pdf" Hn).
  - apply (no_double_underscore_app_l _ _ Hn).
Qed.

Lemma rpartition_tail_free c s l r :
  rpartition c s = Some (l, r) -> contains_char c r = false.
Proof.
  revert l. induction s as [|a s IH]; simpl; [discriminate|]. intros l.
  destruct (rpartition c s) as [[l' r']|] eqn:E.
  - intros [= <- <-]. apply (IH l' eq_refl).
  - destruct (Ascii.eqb a c); [|discriminate]. intros [= <- <-].
    clear IH. induction s as [|b s IH]; [reflexivity|]. simpl in *.
    destruct (rpartition c s) as [[? ?]|]; [discriminate|].
    destruct (Ascii.eqb b c); [discriminate|]. simpl. apply IH. reflexivity.
Qed.

Lemma rpartition_none_free c s : rpartition c s = None -> contains_char c s = false.
Proof.
  induction s as [|a s IH]; simpl; [reflexivity|].
  destruct (rpartition c s) as [[? ?]|]; [discriminate|].
  destruct (Ascii.eqb a c); [discriminate|]. intros _. simpl. apply IH. reflexivity.
Qed.

Lemma rpartition_split c s l r : rpartition c s = Some (l, r) -> s = l +:+ String c r.
Proof.
  revert l. induction s as [|a s IH]; simpl; [discriminate|]. intros l.
  destruct (rpartition c s) as [[l' r']|] eqn:E.
  - intros [= <- <-]. rewrite sapp_cons, <- (IH l' eq_refl). reflexivity.
  - destruct (Ascii.eqb a c) eqn:Ea; [|discriminate]. intros [= <- <-].
    apply Ascii.eqb_eq in Ea. subst. reflexivity.
Qed.

Lemma basename_no_slash p : contains_char "/" (PosixPath.basename p) = false.
Proof.
  unfold PosixPath.basename. destruct (rpartition "/" p) as [[l r]|] eqn:E.
  - apply (rpartition_tail_free _ _ _ _ E).
  - apply (rpartition_none_free _ _ E).
Qed.

Lemma count_char_app c s t : count_char c (s +:+ t) = count_char c s + count_char c t.
Proof.
  induction s as [|a s IH]; [reflexivity|].
  rewrite sapp_cons. simpl. rewrite IH. lia.
Qed.

Lemma count_char_free c s : contains_char c s = false -> count_char c s = 0.
Proof.
  induction s as [|a s IH]; simpl; [reflexivity|].
  intros H. apply orb_false_elim in H as [-> H]. rewrite (IH H). reflexivity.
Qed.

Lemma sforall_safe_no_slash s :
  sforall safe_char s = true -> contains_char "/" s = false.
Proof.
  induction s as [|a s IH]; simpl; [reflexivity|].
  intros H. apply andb_prop in H as [Ha Hs]. rewrite (IH Hs), orb_false_r.
  revert a Ha. by_ascii_cases.
Qed.

(** The extension that is appended: a dot, then text with neither a dot
    nor a slash when the basename has no slash. *)
Lemma ext_or_default_shape name :
  contains_char "/" name = false ->
  exists e, ext_or_default (PosixPath.splitext_ext name) = String "." e
            /\ contains_char "." e = false /\ contains_char "/" e = false.
Proof.
  intros Hn. unfold PosixPath.splitext_ext.
  destruct (rpartition "." name) as [[root e]|] eqn:E;
    [|exists "pdf"%string; repeat split; reflexivity].
  destruct (sforall _ root); [exists "pdf"%string; repeat split; reflexivity|].
  exists e. split; [reflexivity|]. split; [apply (rpartition_tail_free _ _ _ _ E)|].
  apply rpartition_split in E. rewrite E, contains_char_app in Hn.
  apply orb_false_elim in Hn as [_ Hn]. simpl in Hn.
  exact Hn.
Qed.

(** X12. A filename returned by [url_to_filename] holds no slash and
    exactly one dot, the one that starts the extension: it is one path
    segment and it is never the segment of two dots, so the path joined
    from the output directory and it does not leave that directory. *)
Theorem url_to_filename_stays_in_directory (raw_url f : string) :
  url_to_filename raw_url = Ok f ->
  contains_char "/" f = false /\ count_char "." f = 1.
Proof.
  unfold url_to_filename, get_filename.
  destruct (UrlLib.urlparse (lower raw_url)) as [r|e]; [|discriminate].
  intros [= <-]. rewrite filename_of_basename_eq.
  set (name := PosixPath.basename (UrlLib.path r)).
  destruct (ext_or_default_shape name (basename_no_slash _)) as (e & -> & Hd & Hs).
  pose proof (sanitize_safe name) as Hsafe.
  rewrite contains_char_app, count_char_app.
  rewrite (sforall_safe_no_slash _ Hsafe).
  rewrite (count_char_free _ _ (sforall_safe_no_dot _ Hsafe)).
  simpl. rewrite Hs, (count_char_free _ _ Hd). split; reflexivity.
Qed.

Lemma url_to_filename_stays_in_directory_witness :
  url_to_filename "https://churchdwight.com/a/b/../Safety.Data.Sheet.v2.PDF?x=../../etc"
  = Ok "safety_data_sheet_v2.pdf"%string
  /\ contains_char "/" "safety_data_sheet_v2.pdf" = false
  /\ count_char "." "safety_data_sheet_v2.pdf" = 1.
Proof.
  split; [reflexivity|].
  apply (url_to_filename_stays_in_directory
           "https://churchdwight.com/a/b/../Safety.Data.Sheet.v2.PDF?x=../../etc").
  reflexivity.
Defined.

Lemma smap_app f s t : smap f (s +:+ t) = smap f s +:+ smap f t.
Proof.
  induction s as [|a s IH]; [reflexivity|].
  rewrite sapp_cons. simpl. rewrite IH. reflexivity.
Qed.

Lemma smap_id (p : ascii -> bool) f s :
  (forall c, p c = true -> f c = c) -> sforall p s = true -> smap f s = s.
Proof.
  intros Hf. induction s as [|a s IH]; simpl; [reflexivity|].
  intros H. apply andb_prop in H as [Ha Hs]. rewrite (Hf _ Ha), (IH Hs). reflexivity.
Qed.

Lemma sub_underscores_id s : no_double_underscore s = true -> Re.sub_underscores s = s.
Proof.
  induction s as [|a s IH]; [reflexivity|]. intros H.
  pose proof (no_double_underscore_tail _ _ H) as Hs.
  cbn [Re.sub_underscores]. destruct s as [|b s']; [reflexivity|].
  cbn in H. apply andb_prop in H as [H _]. apply negb_true_iff in H.
  rewrite H, (IH Hs). reflexivity.
Qed.

Lemma lstrip_id c s : first_char s <> Some c -> lstrip c s = s.
Proof.
  destruct s as [|a s]; [reflexivity|]. simpl. intros H.
  destruct (Ascii.eqb_spec a c) as [->|]; [congruence|reflexivity].
Qed.

Lemma rstrip_id c s : last_char s <> Some c -> rstrip c s = s.
Proof.
  induction s as [|a s IH]; [reflexivity|]. cbn [last_char rstrip]. intros H.
  destruct (last_char s) as [d|] eqn:E.
  - rewrite (IH H). destruct s; [discriminate|reflexivity].
  - destruct s as [|b s]; [|simpl in E; destruct (last_char s); discriminate].
    simpl. destruct (Ascii.eqb_spec a c) as [->|]; [congruence|reflexivity].
Qed.

Lemma no_double_underscore_app x t :
  no_double_underscore x = true -> no_double_underscore t = true ->
  last_char x <> Some "_" ->
  no_double_underscore (x +:+ t) = true.
Proof.
  intros Hx Ht. induction x as [|a x IH]; [intros _; exact Ht|]. intros Hl.
  pose proof (no_double_underscore_tail _ _ Hx) as Hx'.
  rewrite sapp_cons, no_double_underscore_cons, first_char_app.
  cbn [last_char] in Hl. destruct x as [|b x].
  - rewrite sapp_nil. cbn [first_char]. destruct (first_char t) as [c|]; [|reflexivity].
    rewrite Ht, andb_true_r. apply negb_true_iff, andb_false_intro1.
    simpl in Hl. destruct (Ascii.eqb_spec a "_") as [->|]; [congruence|reflexivity].
  - cbn [first_char]. cbn in Hx. apply andb_prop in Hx as [Hx _]. rewrite Hx.
    apply IH; [exact Hx'|]. destruct (last_char (String b x)) eqn:E; [exact Hl|].
    simpl in E. destruct (last_char x); discriminate.
Qed.

Lemma endswith_app x suf : endswith suf (x +:+ suf) = true.
Proof.
  induction x as [|a x IH].
  - rewrite sapp_nil. destruct suf; cbn [endswith]; rewrite String.eqb_refl; reflexivity.
  - rewrite sapp_cons. cbn [endswith]. rewrite IH.
    destruct (String.eqb _ _); reflexivity.
Qed.

Lemma rpartition_app_free c l r :
  contains_char c r = false -> rpartition c (l +:+ String c r) = Some (l, r).
Proof.
  intros Hr.
  assert (Hnone : rpartition c r = None).
  { induction r as [|b r IH]; [reflexivity|]. simpl in *.
    apply orb_false_elim in Hr as [Hb Hr]. rewrite (IH Hr), Hb. reflexivity. }
  induction l as [|a l IH].
  - rewrite sapp_nil. simpl. rewrite Hnone, Ascii.eqb_refl. reflexivity.
  - rewrite sapp_cons. simpl. rewrite IH. reflexivity.
Qed.

Lemma sanitize_clean_pdf stem :
  stem <> EmptyString ->
  sforall safe_char stem = true ->
  first_char stem <> Some "_" ->
  last_char stem <> Some "_" ->
  no_double_underscore stem = true ->
  filename_of_basename (stem +:+ ".pdf") = stem +:+ ".pdf".
Proof.
  intros Hne Hsafe Hf Hl Hn. rewrite filename_of_basename_eq.
  assert (Hsan : sanitize (stem +:+ ".pdf") = stem).
  { unfold sanitize, Re.sub_non_alnum. rewrite smap_app.
    rewrite (smap_id safe_char _ stem) by (exact Hsafe || by_ascii_cases).
    change (smap _ ".pdf") with "_pdf"%string.
    rewrite sub_underscores_id by (apply no_double_underscore_app; auto).
    unfold strip. rewrite lstrip_id.
    2:{ rewrite first_char_app. destruct stem; [congruence|exact Hf]. }
    rewrite rstrip_id by (rewrite last_char_app; discriminate).
    rewrite endswith_app. change 4 with (String.length "_pdf"). apply drop_last_app. }
  rewrite Hsan. f_equal.
  unfold PosixPath.splitext_ext.
  change (stem +:+ ".pdf") with (stem +:+ String "." "pdf").
  rewrite rpartition_app_free by reflexivity.
  destruct stem as [|a stem]; [congruence|]. simpl in Hsafe |- *.
  apply andb_prop in Hsafe as [Ha _].
  rewrite (safe_char_not_dot _ Ha). reflexivity.
Qed.

(** X13. A name that is clean already is kept: when the basename of the
    path that [urlparse] finds in the lower-case form of the URL (the
    text the code parses) is a non-empty stem of characters of
    [[a-z0-9_]] with no underscore at either end and no two in a row,
    followed by [.pdf], then [url_to_filename] returns that very name.
    By X11 every name with a non-empty stem and the extension [.pdf]
    that [url_to_filename] returns is of this kind. *)
Theorem clean_pdf_name_is_kept (url : string) (r : UrlLib.ParseResult) (stem : string) :
  UrlLib.urlparse (lower url) = Ok r ->
  PosixPath.basename (UrlLib.path r) = stem +:+ ".pdf" ->
  stem <> EmptyString ->
  sforall safe_char stem = true ->
  first_char stem <> Some "_" ->
  last_char stem <> Some "_" ->
  no_double_underscore stem = true ->
  url_to_filename url = Ok (stem +:+ ".pdf").
Proof.
  intros Hr Hb Hne Hsafe Hf Hl Hn.
  rewrite (url_to_filename_of_parse _ _ Hr), Hb.
  rewrite (sanitize_clean_pdf stem Hne Hsafe Hf Hl Hn). reflexivity.
Qed.

Lemma clean_pdf_name_is_kept_witness :
  UrlLib.urlparse (lower "https://cdn.churchdwight.com/docs/Baking_Soda_42000845.PDF")
  = Ok (UrlLib.mkParseResult "https" "cdn.churchdwight.com"
          "/docs/baking_soda_42000845.pdf" "" "" "")
  /\ url_to_filename "https://cdn.churchdwight.com/docs/Baking_Soda_42000845.PDF"
     = Ok "baking_soda_42000845.pdf"%string.
Proof.
  split; [vm_compute; reflexivity|].
  refine (clean_pdf_name_is_kept
           "https://cdn.churchdwight.com/docs/Baking_Soda_42000845.PDF"
           (UrlLib.mkParseResult "https" "cdn.churchdwight.com"
              "/docs/baking_soda_42000845.pdf" "" "" "")
           "baking_soda_42000845" _ _ _ _ _ _ _).
  - vm_compute; reflexivity.
  - vm_compute; reflexivity.
  - discriminate.
  - vm_compute; reflexivity.
  - vm_compute; discriminate.
  - vm_compute; discriminate.
  - vm_compute; reflexivity.
Defined.

(* ===================================================================== *)
(** ** More on the URL validator *)
(* ===================================================================== *)

Lemma partition_none_free c s : contains_char c s = false -> partition c s = None.
Proof.
  induction s as [|a s IH]; simpl; [reflexivity|].
  intros H. apply orb_false_elim in H as [-> H]. rewrite (IH H). reflexivity.
Qed.

Lemma partition_app_free c l r :
  contains_char c l = false -> partition c (l +:+ String c r) = Some (l, r).
Proof.
  induction l as [|a l IH]; intros H.
  - rewrite sapp_nil. simpl. rewrite Ascii.eqb_refl. reflexivity.
  - simpl in H. apply orb_false_elim in H as [Ha H].
    rewrite sapp_cons. simpl. rewrite Ha, (IH H). reflexivity.
Qed.

Lemma strip_prefix_app pre r : strip_prefix pre (pre +:+ r) = Some r.
Proof.
  induction pre as [|a pre IH]; [destruct r; reflexivity|].
  rewrite sapp_cons. simpl. rewrite Ascii.eqb_refl. exact IH.
Qed.

Lemma sfilter_id p s : sforall p s = true -> sfilter p s = s.
Proof.
  induction s as [|a s IH]; simpl; [reflexivity|].
  intros H. apply andb_prop in H as [-> H]. rewrite (IH H). reflexivity.
Qed.

(** [urlparse] returns the scheme and the network location that
    [urlsplit] found. *)
Lemma urlparse_of_urlsplit url r :
  UrlLib.urlsplit url = Ok r ->
  exists r', UrlLib.urlparse url = Ok r'
             /\ UrlLib.scheme r' = UrlLib.scheme r
             /\ UrlLib.netloc r' = UrlLib.netloc r.
Proof.
  intros H. unfold UrlLib.urlparse. rewrite H.
  destruct (_ && _); [destruct (UrlLib.splitparams _)|]; eexists; eauto.
Qed.

Lemma contains_char_lstrip_class c p s :
  contains_char c s = false -> contains_char c (lstrip_class p s) = false.
Proof.
  induction s as [|a s IH]; [trivial|]. cbn [lstrip_class].
  destruct (p a); [|trivial]. intros H. apply IH.
  simpl in H. apply orb_false_elim in H as [_ H]. exact H.
Qed.

Lemma break_nonempty p s l r :
  break p s = (l, r) -> l <> EmptyString ->
  exists c t, s = String c t /\ p c = false.
Proof.
  destruct s as [|c t]; simpl; [intros [= <- _]; congruence|].
  destruct (p c) eqn:E; [intros [= <- _]; congruence|]. eauto.
Qed.

(** X14. What every URL that [is_url_valid] accepts looks like once
    [urlsplit] has stripped its leading controls and spaces and removed
    its tabs and line breaks: scheme characters of which the first is an
    ASCII letter, then [://], then a character that is none of [/?#].
    In particular a text without a colon is never valid. *)
Theorem is_url_valid_shape (url : string) :
  is_url_valid url = true ->
  contains_char ":" url = true
  /\ exists (sch : string) (c : ascii) (rest : string),
       cleaned url = sch +:+ "://" +:+ String c rest
       /\ (exists a t, sch = String a t /\ UrlLib.is_ascii_letter a = true)
       /\ sforall UrlLib.scheme_char sch = true
       /\ UrlLib.netloc_delim c = false.
Proof.
  unfold is_url_valid.
  destruct (UrlLib.urlparse url) as [r|e] eqn:E; [|discriminate].
  intros H. apply andb_prop in H as [Hs Hn].
  unfold UrlLib.urlparse in E.
  destruct (UrlLib.urlsplit url) as [r0|e] eqn:E0; [|discriminate].
  assert (Hs0 : truthy (UrlLib.scheme r0) = true /\ truthy (UrlLib.netloc r0) = true).
  { destruct (_ && _); [destruct (UrlLib.splitparams _)|];
      injection E as <-; auto. }
  clear E Hs Hn r. destruct Hs0 as [Hs Hn].
  unfold UrlLib.urlsplit in E0. fold (cleaned url) in E0.
  destruct (UrlLib.split_scheme (cleaned url)) as [sch0 url2] eqn:Es.
  destruct (UrlLib.split_netloc url2) as [[nl url3]|e] eqn:En; [|discriminate].
  destruct (UrlLib.split_off "#" url3) as [url4 frag].
  destruct (UrlLib.split_off "?" url4) as [url5 qry].
  injection E0 as <-. cbn [UrlLib.scheme UrlLib.netloc] in Hs, Hn.
  unfold UrlLib.split_scheme in Es.
  destruct (partition ":" (cleaned url)) as [[pre post]|] eqn:Ep;
    [|injection Es as <- _; discriminate].
  destruct (truthy pre && _ && sforall UrlLib.scheme_char pre) eqn:Ec;
    [|injection Es as <- _; discriminate].
  injection Es as _ <-.
  apply andb_prop in Ec as [Ec Hsch]. apply andb_prop in Ec as [_ Hletter].
  unfold UrlLib.split_netloc in En.
  destruct (strip_prefix "//" post) as [rest|] eqn:Esp;
    [|injection En as <- _; discriminate].
  destruct (break UrlLib.netloc_delim rest) as [nl0 u0] eqn:Eb.
  assert (Hnl : nl0 = nl).
  { destruct (_ || _); [discriminate|].
    destruct (_ && _); [destruct (UrlLib.check_bracketed_netloc nl0); [|discriminate]|];
      injection En as <- _; reflexivity. }
  subst nl0.
  destruct (break_nonempty _ _ _ _ Eb) as (c & t & -> & Hc);
    [destruct nl; [discriminate|congruence]|].
  split.
  - destruct (contains_char ":" url) eqn:Ecol; [reflexivity|].
    unfold cleaned in Ep.
    rewrite (partition_none_free _ _
               (contains_char_sfilter _ _ _ (contains_char_lstrip_class _ _ _ Ecol)))
      in Ep.
    discriminate.
  - exists pre, c, t. apply partition_split in Ep. apply strip_prefix_split in Esp.
    subst post. split; [rewrite Ep; reflexivity|].
    split; [|split; [exact Hsch|exact Hc]].
    destruct pre as [|a pre]; [discriminate|]. eauto.
Qed.

Lemma is_url_valid_shape_witness :
  is_url_valid " HTTPS://ChurchDwight.com/pdf/?productID=40002569" = true
  /\ contains_char ":" " HTTPS://ChurchDwight.com/pdf/?productID=40002569" = true
  /\ exists (sch : string) (c : ascii) (rest : string),
       cleaned " HTTPS://ChurchDwight.com/pdf/?productID=40002569"
       = sch +:+ "://" +:+ String c rest
       /\ (exists a t, sch = String a t /\ UrlLib.is_ascii_letter a = true)
       /\ sforall UrlLib.scheme_char sch = true
       /\ UrlLib.netloc_delim c = false.
Proof.
  assert (H : is_url_valid " HTTPS://ChurchDwight.com/pdf/?productID=40002569" = true)
    by (vm_compute; reflexivity).
  split; [exact H|].
  exact (is_url_valid_shape " HTTPS://ChurchDwight.com/pdf/?productID=40002569" H).
Defined.

Lemma urlsplit_http_host sch host tail :
  sch = "http"%string \/ sch = "https"%string ->
  sforall host_char host = true ->
  tail = EmptyString \/ first_char tail = Some "/" ->
  exists r, UrlLib.urlsplit (sch +:+ "://" +:+ host +:+ tail) = Ok r
            /\ UrlLib.scheme r = sch /\ UrlLib.netloc r = host.
Proof.
  intros Hsch Hhost Htail.
  set (keep := fun c => negb (UrlLib.unsafe_byte c)).
  assert (Hk : sfilter keep host = host).
  { apply sfilter_id. revert Hhost. apply sforall_impl. by_ascii_cases. }
  assert (Hd : sforall (fun c => negb (UrlLib.netloc_delim c)) host = true).
  { revert Hhost. apply sforall_impl. by_ascii_cases. }
  assert (Hlb : contains_char "[" host = false /\ contains_char "]" host = false).
  { clear Hk Hd. induction host as [|a host IH]; [split; reflexivity|].
    simpl in Hhost. apply andb_prop in Hhost as [Ha Hh]. destruct (IH Hh) as [H1 H2].
    simpl. rewrite H1, H2, !orb_false_r. revert a Ha. by_ascii_cases. }
  assert (Ht : break UrlLib.netloc_delim (sfilter keep tail)
               = (EmptyString, sfilter keep tail)).
  { destruct Htail as [->|Hf]; [reflexivity|].
    destruct tail as [|c tail]; [discriminate|]. injection Hf as ->. reflexivity. }
  assert (Hl : lstrip_class UrlLib.c0_control_or_space (sch +:+ "://" +:+ host +:+ tail)
               = sch +:+ "://" +:+ host +:+ tail)
    by (destruct Hsch as [-> | ->]; reflexivity).
  unfold UrlLib.urlsplit. rewrite Hl. fold keep.
  rewrite !sfilter_app, Hk.
  assert (Hs : UrlLib.split_scheme (sfilter keep sch +:+ sfilter keep "://" +:+ host
                                    +:+ sfilter keep tail)
               = (sch, "//" +:+ host +:+ sfilter keep tail)).
  { unfold UrlLib.split_scheme.
    destruct Hsch as [-> | ->].
    - change (sfilter keep "http" +:+ sfilter keep "://" +:+ host +:+ sfilter keep tail)
        with ("http" +:+ String ":" ("//" +:+ host +:+ sfilter keep tail)).
      rewrite partition_app_free by reflexivity. reflexivity.
    - change (sfilter keep "https" +:+ sfilter keep "://" +:+ host +:+ sfilter keep tail)
        with ("https" +:+ String ":" ("//" +:+ host +:+ sfilter keep tail)).
      rewrite partition_app_free by reflexivity. reflexivity. }
  rewrite Hs. unfold UrlLib.split_netloc.
  rewrite strip_prefix_app, (break_app_clean _ _ _ Hd), Ht. cbn [fst snd].
  rewrite sapp_empty_r. destruct Hlb as [-> ->]. cbn [andb orb negb].
  destruct (UrlLib.split_off "#" (sfilter keep tail)) as [url4 frag].
  destruct (UrlLib.split_off "?" url4) as [url5 qry].
  eexists. split; [reflexivity|]. split; reflexivity.
Qed.

(** X15. [is_url_valid] accepts every URL made of [http://] or
    [https://], a non-empty host written in ASCII without a slash, a
    question mark, a hash, a square bracket, a tab or a line break, and
    then nothing or a path that starts with a slash. *)
Theorem is_url_valid_http_host (host tail : string) :
  host <> EmptyString ->
  sforall host_char host = true ->
  tail = EmptyString \/ first_char tail = Some "/" ->
  is_url_valid ("http://" +:+ host +:+ tail) = true
  /\ is_url_valid ("https://" +:+ host +:+ tail) = true.
Proof.
  intros Hne Hhost Htail.
  assert (H : forall sch, sch = "http"%string \/ sch = "https"%string ->
            is_url_valid (sch +:+ "://" +:+ host +:+ tail) = true).
  { intros sch Hsch.
    destruct (urlsplit_http_host sch host tail Hsch Hhost Htail) as (r & Hr & Hs & Hn).
    destruct (urlparse_of_urlsplit _ _ Hr) as (r' & Hr' & Hs' & Hn').
    unfold is_url_valid. rewrite Hr', Hs', Hn', Hs, Hn.
    destruct host; [congruence|]. destruct Hsch as [-> | ->]; reflexivity. }
  split; [apply (H "http"%string)|apply (H "https"%string)]; auto.
Qed.

Lemma is_url_valid_http_host_witness :
  "churchdwight.com"%string <> EmptyString
  /\ sforall host_char "churchdwight.com" = true
  /\ is_url_valid
       ("https://" +:+ "churchdwight.com"
        +:+ "/ingredient-disclosure/cleaning-products/42000845-ah-Baking-Soda.aspx")
     = true.
Proof.
  split; [discriminate|]. split; [reflexivity|].
  apply (is_url_valid_http_host "churchdwight.com"
           "/ingredient-disclosure/cleaning-products/42000845-ah-Baking-Soda.aspx");
    [discriminate|reflexivity|right; reflexivity].
Defined.

(* ===================================================================== *)
(** ** More on the link extractor *)
(* ===================================================================== *)

Lemma is_digit_url_char : forall c, is_digit c = true -> Re.url_char c = true.
Proof. by_ascii_cases. Qed.

Lemma is_digit_not_slash : forall c, is_digit c = true -> Ascii.eqb "/" c = false.
Proof. by_ascii_cases. Qed.

Lemma not_url_char_not_slash : forall c, Re.url_char c = false -> Ascii.eqb "/" c = false.
Proof. by_ascii_cases. Qed.

Lemma not_url_char_not_digit : forall c, Re.url_char c = false -> is_digit c = false.
Proof. by_ascii_cases. Qed.

Lemma match_tail_not_slash c s : Ascii.eqb "/" c = false -> Re.match_tail (String c s) = None.
Proof.
  intros H. unfold Re.match_tail, Re.pdf_literal. cbn [strip_prefix]. rewrite H. reflexivity.
Qed.

Lemma match_star_cons c s :
  Re.match_star (String c s)
  = if Re.url_char c
    then match Re.match_star s with
         | Some n => Some (S n)
         | None => Re.match_tail (String c s)
         end
    else Re.match_tail (String c s).
Proof. reflexivity. Qed.

Lemma match_star_step_none c s :
  Re.url_char c = true -> Re.match_star s = None -> Re.match_tail (String c s) = None ->
  Re.match_star (String c s) = None.
Proof. intros Hc Hs Ht. cbn [Re.match_star]. rewrite Hc, Hs. exact Ht. Qed.

Lemma match_star_after_digits ds rest :
  sforall is_digit ds = true -> link_ends rest -> Re.match_star (ds +:+ rest) = None.
Proof.
  intros Hd Hr. induction ds as [|d ds IH].
  - rewrite sapp_nil. destruct rest as [|c rest]; [reflexivity|]. simpl in Hr.
    cbn [Re.match_star]. rewrite Hr. apply match_tail_not_slash, not_url_char_not_slash, Hr.
  - simpl in Hd. apply andb_prop in Hd as [Ha Hd]. rewrite sapp_cons.
    apply match_star_step_none; [apply is_digit_url_char, Ha|apply IH, Hd|].
    apply match_tail_not_slash, is_digit_not_slash, Ha.
Qed.

Lemma digits_len_app ds rest :
  sforall is_digit ds = true -> link_ends rest ->
  Re.digits_len (ds +:+ rest) = String.length ds.
Proof.
  intros Hd Hr. induction ds as [|d ds IH].
  - rewrite sapp_nil. destruct rest as [|c rest]; [reflexivity|]. simpl in *.
    rewrite (not_url_char_not_digit _ Hr). reflexivity.
  - simpl in Hd. apply andb_prop in Hd as [Ha Hd]. rewrite sapp_cons. simpl.
    rewrite Ha, (IH Hd). reflexivity.
Qed.

Lemma match_tail_link ds rest :
  ds <> EmptyString -> sforall is_digit ds = true -> link_ends rest ->
  Re.match_tail (Re.pdf_literal +:+ ds +:+ rest)
  = Some (String.length Re.pdf_literal + String.length ds).
Proof.
  intros Hne Hd Hr. unfold Re.match_tail.
  rewrite strip_prefix_app, (digits_len_app _ _ Hd Hr).
  destruct ds; [congruence|reflexivity].
Qed.

Lemma match_star_literal ds rest :
  ds <> EmptyString -> sforall is_digit ds = true -> link_ends rest ->
  Re.match_star (Re.pdf_literal +:+ ds +:+ rest)
  = Some (String.length Re.pdf_literal + String.length ds).
Proof.
  intros Hne Hd Hr.
  pose proof (match_tail_link ds rest Hne Hd Hr) as Ht.
  pose proof (match_star_after_digits ds rest Hd Hr) as Hs.
  unfold Re.pdf_literal in *. rewrite !sapp_cons, sapp_nil in *.
  rewrite match_star_cons. change (Re.url_char "/") with true. cbv iota.
  match goal with
  | |- match ?x with _ => _ end = _ => assert (Hn : x = None)
  end.
  { repeat (apply match_star_step_none; [reflexivity| |reflexivity]). exact Hs. }
  rewrite Hn. exact Ht.
Qed.

Lemma match_star_link body ds rest :
  sforall Re.url_char body = true ->
  ds <> EmptyString -> sforall is_digit ds = true -> link_ends rest ->
  Re.match_star (body +:+ Re.pdf_literal +:+ ds +:+ rest)
  = Some (String.length body + (String.length Re.pdf_literal + String.length ds)).
Proof.
  intros Hb Hne Hd Hr. induction body as [|c body IH].
  - rewrite sapp_nil. apply match_star_literal; assumption.
  - simpl in Hb. apply andb_prop in Hb as [Hc Hb]. rewrite sapp_cons.
    cbn [Re.match_star]. rewrite Hc, (IH Hb). reflexivity.
Qed.

Lemma match_after_scheme_link body ds rest :
  body <> EmptyString -> sforall Re.url_char body = true ->
  ds <> EmptyString -> sforall is_digit ds = true -> link_ends rest ->
  Re.match_after_scheme ("://" +:+ body +:+ Re.pdf_literal +:+ ds +:+ rest)
  = Some (String.length ("://" +:+ body +:+ Re.pdf_literal +:+ ds)).
Proof.
  intros Hbne Hb Hne Hd Hr. unfold Re.match_after_scheme.
  rewrite strip_prefix_app. destruct body as [|c body]; [congruence|].
  simpl in Hb. apply andb_prop in Hb as [Hc Hb].
  rewrite sapp_cons. cbn [Re.match_plus]. rewrite Hc.
  rewrite (match_star_link body ds rest Hb Hne Hd Hr).
  rewrite !length_sapp. reflexivity.
Qed.

Lemma match_here_link m rest :
  pdf_link_shape m -> link_ends rest ->
  Re.match_here (m +:+ rest) = Some (String.length m).
Proof.
  intros (sch & body & ds & Hsch & -> & Hbne & Hb & Hne & Hd) Hr.
  pose proof (match_after_scheme_link body ds rest Hbne Hb Hne Hd Hr) as Ha.
  rewrite !sapp_assoc. unfold Re.match_here.
  destruct Hsch as [-> | ->].
  - rewrite strip_prefix_app.
    change ("://" +:+ body +:+ Re.pdf_literal +:+ ds +:+ rest)
      with (String ":" ("//" +:+ body +:+ Re.pdf_literal +:+ ds +:+ rest)) at 1.
    change (Ascii.eqb ":" "s") with false. cbv iota.
    rewrite Ha, length_sapp. reflexivity.
  - change ("https" +:+ "://" +:+ body +:+ Re.pdf_literal +:+ ds +:+ rest)
      with ("http" +:+ String "s" ("://" +:+ body +:+ Re.pdf_literal +:+ ds +:+ rest)).
    rewrite strip_prefix_app. rewrite Ascii.eqb_refl, Ha.
    rewrite (length_sapp "https"). reflexivity.
Qed.

Lemma findall_from_skip a rest :
  Re.findall_from (String.length a) (a +:+ rest) = Re.findall_from 0 rest.
Proof.
  induction a as [|c a IH]; [reflexivity|]. rewrite sapp_cons. exact IH.
Qed.

(** A link that ends where the text ends, or in front of white space or
    a quote, is the first match and the search goes on behind it. *)
Lemma findall_link m rest :
  pdf_link_shape m -> link_ends rest ->
  Re.findall (m +:+ rest) = m :: Re.findall rest.
Proof.
  intros Hm Hr. pose proof (match_here_link m rest Hm Hr) as H.
  unfold Re.findall. destruct m as [|c m].
  - destruct Hm as (sch & body & ds & [-> | ->] & Hm & _); discriminate.
  - rewrite sapp_cons in *. cbn [Re.findall_from]. rewrite H.
    rewrite <- sapp_cons, take_length_app. f_equal.
    simpl. rewrite Nat.sub_0_r. apply findall_from_skip.
Qed.

Lemma match_here_starts_with_http s n :
  Re.match_here s = Some n -> startswith "http" s = true.
Proof.
  unfold Re.match_here, startswith.
  destruct (strip_prefix "http" s); [reflexivity|discriminate].
Qed.

Lemma startswith_http_straddle b x :
  b <> EmptyString -> startswith "http" x = true ->
  startswith "http" (b +:+ x) = true -> startswith "http" b = true.
Proof.
  intros Hb Hx. unfold startswith in *.
  destruct x as [|x1 x]; [discriminate|]. cbn [strip_prefix] in Hx.
  destruct (Ascii.eqb_spec "h" x1) as [<-|]; [|discriminate]. clear Hx.
  destruct b as [|b1 [|b2 [|b3 [|b4 b]]]]; [congruence| | | |];
    rewrite ?sapp_cons, ?sapp_nil; cbn [strip_prefix];
    repeat match goal with
           | |- context [Ascii.eqb ?a ?c] =>
               destruct (Ascii.eqb_spec a c); subst; try discriminate
           end;
    try reflexivity; try discriminate.
  all: destruct x as [|x2 [|x3 x]]; cbn [strip_prefix]; try discriminate;
    repeat match goal with
           | |- context [Ascii.eqb ?a ?c] =>
               destruct (Ascii.eqb_spec a c); subst; try discriminate
           end;
    try reflexivity; try discriminate.
Qed.

Lemma findall_skip_prefix pre x :
  contains "http" pre = false -> startswith "http" x = true ->
  Re.findall (pre +:+ x) = Re.findall x.
Proof.
  intros Hp Hx. unfold Re.findall. induction pre as [|c pre IH]; [reflexivity|].
  cbn [contains] in Hp. destruct (startswith "http" (String c pre)) eqn:Es; [discriminate|].
  rewrite sapp_cons. cbn [Re.findall_from].
  destruct (Re.match_here (String c (pre +:+ x))) as [n|] eqn:E; [|apply IH, Hp].
  apply match_here_starts_with_http in E. rewrite <- sapp_cons in E.
  assert (Hne : String c pre <> EmptyString) by discriminate.
  rewrite (startswith_http_straddle _ _ Hne Hx E) in Es. discriminate.
Qed.

Lemma pdf_link_shape_starts_with_http m rest :
  pdf_link_shape m -> startswith "http" (m +:+ rest) = true.
Proof.
  intros (sch & body & ds & [-> | ->] & -> & _); unfold startswith;
    rewrite !sapp_assoc.
  - rewrite strip_prefix_app. reflexivity.
  - change ("https" +:+ "://" +:+ body +:+ Re.pdf_literal +:+ ds +:+ rest)
      with ("http" +:+ String "s" ("://" +:+ body +:+ Re.pdf_literal +:+ ds +:+ rest)).
    rewrite strip_prefix_app. reflexivity.
Qed.

(** X16. [extract_pdf_urls] finds every link that is set off from what
    follows: in a text made of a part without [http], a link of the
    shape of the pattern, and a rest that is empty or starts with white
    space or a quote, the first match is that link, whole, and the
    other matches are those of the rest. *)
Theorem extract_pdf_urls_finds_link (pre m rest : string) (w : World) :
  contains "http" pre = false ->
  pdf_link_shape m ->
  link_ends rest ->
  (extract_pdf_urls (pre +:+ m +:+ rest) w).1 = Ok (m :: Re.findall rest).
Proof.
  intros Hp Hm Hr.
  destruct (extract_pdf_urls_returns (pre +:+ m +:+ rest) w) as (w' & -> & _).
  cbn [fst]. f_equal.
  rewrite (findall_skip_prefix _ _ Hp (pdf_link_shape_starts_with_http m rest Hm)).
  apply findall_link; assumption.
Qed.

Lemma example_link_shape : pdf_link_shape example_link.
Proof.
  exists "https"%string, "churchdwight.com"%string, "40002569"%string.
  split; [auto|]. split; [reflexivity|].
  split; [discriminate|]. split; [reflexivity|]. split; [discriminate|reflexivity].
Qed.

Lemma extract_pdf_urls_finds_link_witness :
  contains "http" "<li><a class='pdf' target='_blank' href='" = false
  /\ pdf_link_shape example_link
  /\ link_ends "'>English</a></li>"
  /\ (extract_pdf_urls
        ("<li><a class='pdf' target='_blank' href='" +:+ example_link
         +:+ "'>English</a></li>") empty_world).1
     = Ok (example_link :: Re.findall "'>English</a></li>").
Proof.
  assert (H1 : contains "http" "<li><a class='pdf' target='_blank' href='" = false)
    by reflexivity.
  assert (H3 : link_ends "'>English</a></li>") by reflexivity.
  split; [exact H1|]. split; [exact example_link_shape|]. split; [exact H3|].
  apply (extract_pdf_urls_finds_link _ _ _ empty_world H1 example_link_shape H3).
Defined.

Lemma sforall_is_digit_url_char ds :
  sforall is_digit ds = true -> sforall Re.url_char ds = true.
Proof. apply sforall_impl, is_digit_url_char. Qed.

(** Two links one behind the other make one link. *)
Lemma pdf_link_shape_app m1 m2 :
  pdf_link_shape m1 -> pdf_link_shape m2 -> pdf_link_shape (m1 +:+ m2).
Proof.
  intros (s1 & b1 & d1 & Hs1 & -> & Hb1 & Hu1 & Hd1 & Hg1)
         (s2 & b2 & d2 & Hs2 & -> & Hb2 & Hu2 & Hd2 & Hg2).
  exists s1, (b1 +:+ Re.pdf_literal +:+ d1 +:+ s2 +:+ "://" +:+ b2), d2.
  split; [exact Hs1|]. split; [rewrite !sapp_assoc; reflexivity|].
  split; [destruct b1; [congruence|discriminate]|].
  split; [|auto].
  rewrite !sforall_app, Hu1, Hu2, (sforall_is_digit_url_char _ Hg1).
  destruct Hs2 as [-> | ->]; reflexivity.
Qed.

(** X17. Links that follow one another with nothing in between are not
    told apart: of two links of the shape of the pattern written back
    to back, [extract_pdf_urls] returns one string, the two together,
    and neither link by itself. *)
Theorem extract_pdf_urls_merges_adjacent_links (m1 m2 : string) (w : World) :
  pdf_link_shape m1 ->
  pdf_link_shape m2 ->
  (extract_pdf_urls (m1 +:+ m2) w).1 = Ok [m1 +:+ m2].
Proof.
  intros H1 H2.
  destruct (extract_pdf_urls_returns (m1 +:+ m2) w) as (w' & -> & _).
  cbn [fst]. f_equal.
  pose proof (findall_link (m1 +:+ m2) EmptyString (pdf_link_shape_app _ _ H1 H2) I) as H.
  rewrite sapp_empty_r in H. exact H.
Qed.

Lemma extract_pdf_urls_merges_adjacent_links_witness :
  pdf_link_shape example_link
  /\ (extract_pdf_urls (example_link +:+ example_link) empty_world).1
     = Ok [example_link +:+ example_link].
Proof.
  split; [exact example_link_shape|].
  apply (extract_pdf_urls_merges_adjacent_links example_link example_link empty_world
           example_link_shape example_link_shape).
Defined.

Lemma length_take n s : String.length (take n s) = Nat.min n (String.length s).
Proof.
  revert s. induction n as [|n IH]; intros [|a s]; simpl; try reflexivity.
  rewrite IH. reflexivity.
Qed.

Lemma findall_from_total_length inside s :
  total_length (Re.findall_from inside s) + Nat.min inside (String.length s)
  <= String.length s.
Proof.
  revert inside. induction s as [|c s IH]; intros inside; cbn [Re.findall_from].
  - simpl. lia.
  - destruct inside as [|k].
    + destruct (Re.match_here (String c s)) as [n|].
      * cbn [total_length]. rewrite length_take. specialize (IH (n - 1)).
        simpl String.length. lia.
      * specialize (IH 0). simpl. lia.
    + specialize (IH k). simpl. lia.
Qed.

Lemma pdf_link_shape_length m : pdf_link_shape m -> 25 <= String.length m.
Proof.
  intros (sch & body & ds & Hs & -> & Hb & _ & Hd & _).
  rewrite !length_sapp.
  assert (4 <= String.length sch) by (destruct Hs as [-> | ->]; simpl; lia).
  assert (1 <= String.length body) by (destruct body; [congruence|simpl; lia]).
  assert (1 <= String.length ds) by (destruct ds; [congruence|simpl; lia]).
  simpl. lia.
Qed.

Lemma total_length_lower_bound (l : list string) k :
  (forall m, In m l -> k <= String.length m) -> k * length l <= total_length l.
Proof.
  induction l as [|x l IH]; intros H; simpl; [lia|].
  assert (k <= String.length x) by (apply H; simpl; auto).
  assert (k * length l <= total_length l) by (apply IH; intros; apply H; simpl; auto).
  lia.
Qed.

(** X18. The links [extract_pdf_urls] returns are cut out of the text
    one after the other without overlap: each has 25 characters or
    more, and their lengths add up to at most the length of the text.
    So a text of [n] characters gives at most [n / 25] links, and none
    when it is shorter than 25. *)
Theorem extract_pdf_urls_matches_do_not_overlap (html : string) (w : World) :
  exists matches,
    (extract_pdf_urls html w).1 = Ok matches
    /\ (forall m, In m matches -> 25 <= String.length m)
    /\ total_length matches <= String.length html
    /\ 25 * length matches <= String.length html.
Proof.
  exists (Re.findall html).
  destruct (extract_pdf_urls_returns html w) as (w' & -> & _).
  split; [reflexivity|].
  assert (H1 : forall m, In m (Re.findall html) -> 25 <= String.length m)
    by (intros m Hm; apply pdf_link_shape_length, (findall_shape html m Hm)).
  assert (H2 : total_length (Re.findall html) <= String.length html).
  { pose proof (findall_from_total_length 0 html) as H. unfold Re.findall. lia. }
  split; [exact H1|]. split; [exact H2|].
  pose proof (total_length_lower_bound _ 25 H1). lia.
Qed.

(* ===================================================================== *)
(** ** A run in which no link resolves *)
(* ===================================================================== *)

Lemma map_each_requests env seeds w :
  exists bodies w',
    map_each seeds (get_data_from_url env) w = (Ok bodies, w')
    /\ files w' = files w
    /\ sessions w' = sessions w
    /\ requested (trace w') = requested (trace w) ++ seeds.
Proof.
  revert w. induction seeds as [|uri seeds IH]; intros w.
  - exists [], w. simpl. rewrite app_nil_r. repeat split; reflexivity.
  - cbn [map_each]. unfold bind at 1. rewrite get_data_from_url_scrape.
    assert (Hs : exists body w1,
               scrape env uri w = (Ok body, w1)
               /\ files w1 = files w /\ sessions w1 = sessions w
               /\ requested (trace w1) = requested (trace w) ++ [uri]).
    { unfold scrape.
      destruct (env_requests_get env (clock w) uri) as [resp|e];
        [destruct (body_breaks resp); [|destruct (is_error_status _)]|];
        eexists _, _; (split; [reflexivity|]); simpl;
        rewrite ?requested_app; simpl; rewrite ?app_nil_r; auto. }
    destruct Hs as (body & w1 & -> & Hf1 & Hs1 & Hr1).
    unfold bind at 1. destruct (IH w1) as (bodies & w' & -> & Hf & Hs & Hr).
    exists (body :: bodies), w'. unfold ret. split; [reflexivity|].
    rewrite Hr, Hr1, <- app_assoc. split; [congruence|]. split; [congruence|reflexivity].
Qed.

Lemma extract_pdf_urls_quiet html w :
  exists w', extract_pdf_urls html w = (Ok (Re.findall html), w')
             /\ files w' = files w
             /\ sessions w' = sessions w
             /\ requested (trace w') = requested (trace w).
Proof.
  destruct w as [d f s c t].
  unfold extract_pdf_urls, bind, print, emit, ret.
  destruct (bool_decide (Re.findall html = [])); simpl;
    eexists; (split; [reflexivity|]); simpl;
    rewrite ?requested_app; simpl; rewrite ?app_nil_r; auto.
Qed.

Lemma resolve_one_without_resolution env dir link w :
  (forall n, env_chrome env n = Ok tt) ->
  (forall n, env_set_page_load_timeout env n = Ok tt) ->
  no_valid_resolution env ->
  exists w',
    (resolved_url <- get_final_url env link ;;
     if is_url_valid resolved_url
     then download_pdf env resolved_url dir ;;; ret tt
     else ret tt) w = (Ok tt, w')
    /\ files w' = files w
    /\ sessions w' = sessions w
    /\ requested (trace w') = requested (trace w)
    /\ navigated (trace w') = navigated (trace w) ++ [link].
Proof.
  intros Hc Ht Hno. unfold bind at 1.
  rewrite (get_final_url_started _ _ _ (Hc _) (Ht _)). unfold resolved.
  specialize (Hno (S (S (clock w))) link).
  assert (He : is_url_valid EmptyString = false) by reflexivity.
  destruct (env_driver_get env (S (S (clock w))) link) as [[]|e1];
    [destruct (env_current_url env (S (S (S (clock w)))) link) as [u|e2]|];
    rewrite ?Hno, ?He; unfold ret; eexists; (split; [reflexivity|]);
    cbn [files sessions trace];
    rewrite requested_app, navigated_app; cbn [requested navigated];
    rewrite !app_nil_r; auto.
Qed.

Lemma resolve_and_download_without_resolution env dir links w :
  (forall n, env_chrome env n = Ok tt) ->
  (forall n, env_set_page_load_timeout env n = Ok tt) ->
  no_valid_resolution env ->
  exists w', resolve_and_download env dir links w = (Ok tt, w')
             /\ files w' = files w
             /\ sessions w' = sessions w
             /\ requested (trace w') = requested (trace w)
             /\ navigated (trace w') = navigated (trace w) ++ links.
Proof.
  intros Hc Ht Hno. unfold resolve_and_download.
  revert w. induction links as [|link links IH]; intros w.
  - exists w. cbn [for_each]. unfold ret. rewrite app_nil_r. repeat split; reflexivity.
  - cbn [for_each]. unfold bind at 1.
    destruct (resolve_one_without_resolution env dir link w Hc Ht Hno)
      as (w1 & -> & Hf1 & Hs1 & Hr1 & Hn1).
    destruct (IH w1) as (w' & -> & Hf & Hs & Hr & Hn).
    exists w'. split; [reflexivity|].
    rewrite Hn, Hn1, <- app_assoc. cbn [app].
    split; [congruence|]. split; [congruence|]. split; [congruence|reflexivity].
Qed.

(** X19. When no navigation ends on an address that [is_url_valid]
    accepts (the navigation raises, reading the address raises, or the
    address read is not a valid URL) and the browser starts each time,
    [main] returns without a single download request: the only HTTP
    requests are those for the seed pages, in order, no file is touched
    and no session stays open. A navigation that fails gives the empty
    string, which [is_url_valid] rejects, so [main] drops the link
    and goes on to the next one. *)
Theorem main_without_valid_resolution (env : Env) (remote_api_urls : list string)
    (w : World) :
  (forall n, env_chrome env n = Ok tt) ->
  (forall n, env_set_page_load_timeout env n = Ok tt) ->
  no_valid_resolution env ->
  exists w',
    main env remote_api_urls w = (Ok tt, w')
    /\ files w' = files w
    /\ sessions w' = sessions w
    /\ requested (trace w') = requested (trace w) ++ remote_api_urls.
Proof.
  intros Hc Ht Hno. rewrite main_after_ensure_output_dir.
  destruct (ensure_output_dir_quiet env "PDFs" w) as (wa & Ha & Hfa & Hsa & Hna & Hra).
  destruct (map_each_requests env remote_api_urls wa)
    as (bodies & wb & Hb & Hfb & Hsb & Hrb).
  destruct (extract_pdf_urls_quiet (String.concat EmptyString bodies) wb)
    as (wc & Hx & Hfc & Hsc & Hrc).
  destruct (resolve_and_download_without_resolution env "PDFs"
              (remove_duplicates (Re.findall (String.concat EmptyString bodies)))
              wc Hc Ht Hno)
    as (wd & Hd & Hfd & Hsd & Hrd & Hnd).
  unfold bind at 1. rewrite Ha. unfold bind at 1. rewrite Hb.
  unfold bind at 1. rewrite Hx. rewrite Hd.
  exists wd. split; [reflexivity|]. split; [congruence|]. split; [congruence|].
  congruence.
Qed.

Lemma main_without_valid_resolution_witness :
  (forall n, env_chrome example_env_no_navigation n = Ok tt)
  /\ (forall n, env_set_page_load_timeout example_env_no_navigation n = Ok tt)
  /\ no_valid_resolution example_env_no_navigation
  /\ exists w',
       main example_env_no_navigation [example_seed] empty_world = (Ok tt, w')
       /\ files w' = files empty_world
       /\ sessions w' = sessions empty_world
       /\ requested (trace w') = requested (trace empty_world) ++ [example_seed].
Proof.
  assert (Hc : forall n, env_chrome example_env_no_navigation n = Ok tt)
    by (intros n; reflexivity).
  assert (Ht : forall n, env_set_page_load_timeout example_env_no_navigation n = Ok tt)
    by (intros n; reflexivity).
  assert (Hno : no_valid_resolution example_env_no_navigation)
    by (intros n url; exact I).
  split; [exact Hc|]. split; [exact Ht|]. split; [exact Hno|].
  exact (main_without_valid_resolution example_env_no_navigation [example_seed]
           empty_world Hc Ht Hno).
Defined.
